(** * mtslinker.processor: timeline reconstruction and composition

    A shallow embedding of [src/mtslinker/processor.py] and the properties
    its specification states about it.

    Modelling conventions.
    - Python [float] values (durations, start times) are exact rationals [Q];
      rounding, infinities and NaN are outside the model.  Equality of times
      is [Qeq] ([==]) wherever arithmetic is involved.
    - The parsed JSON document is a [pyval]; a Python [dict] is an association
      list looked up from the front.
    - Effects (logging, closing clips, writing the output file) are recorded in
      a trace of [Event]s; exceptions are a [result].  A computation is a pair
      of the events it emitted and its outcome.
    - The world outside the module (downloader, file system, decoders, the
      encoder, [float] on strings) is an [Env] of oracles.
    - moviepy objects are the lazy clip graph the calls build; their
      attributes ([duration], [audio], ...) are functions on that graph. *)

From Stdlib Require Import List String Ascii Bool ZArith QArith Qround Qminmax Lqa Lia.
From Stdlib Require Import Permutation Sorted.
Import ListNotations.

Local Open Scope string_scope.
Local Open Scope list_scope.
Local Open Scope Q_scope.

(** ** Python values and exceptions *)

Module Py.

#[local] Set Warnings "-register-all".

Inductive pyval : Type :=
| PyNone
| PyBool (b : bool)
| PyInt (n : Z)
| PyFloat (x : Q)
| PyStr (s : string)
| PyList (l : list pyval)
| PyDict (d : list (string * pyval)).

(** Subclasses of [Exception]; the argument is the message. *)
Inductive exn : Type :=
| ValueError (msg : string)
| TypeError (msg : string)
| KeyError (msg : string)
| IndexError (msg : string)
| OSError (msg : string)
| OtherException (msg : string)
| OverflowError (msg : string)
| AttributeError (msg : string).

Inductive result (A : Type) : Type :=
| Ok (a : A)
| Raise (e : exn).
Arguments Ok {A} a.
Arguments Raise {A} e.

Definition dict := list (string * pyval).

(** [d.get(key)], [None] of the option standing for an absent key. *)
Fixpoint lookup (key : string) (d : dict) : option pyval :=
  match d with
  | [] => None
  | (k, v) :: d' => if String.eqb k key then Some v else lookup key d'
  end.

(** [d.get(key, default)] *)
Definition get (d : dict) (key : string) (default : pyval) : pyval :=
  match lookup key d with
  | Some v => v
  | None => default
  end.

(** [key in d] *)
Definition contains (key : string) (d : dict) : bool :=
  match lookup key d with
  | Some _ => true
  | None => false
  end.

(** [type(v).__name__] *)
Definition type_name (v : pyval) : string :=
  match v with
  | PyNone => "NoneType"
  | PyBool _ => "bool"
  | PyInt _ => "int"
  | PyFloat _ => "float"
  | PyStr _ => "str"
  | PyList _ => "list"
  | PyDict _ => "dict"
  end.

(** The double quote character. *)
Definition double_quote : ascii := ascii_of_N 34.

Definition hex_digit (n : N) : ascii :=
  match n with
  | 10%N => "a" | 11%N => "b" | 12%N => "c"
  | 13%N => "d" | 14%N => "e" | 15%N => "f"
  | _ => ascii_of_N (48 + n)
  end%char.

(** One character of [repr(s)] inside quotes [quote]. *)
Definition repr_char (quote c : ascii) : string :=
  let n := N_of_ascii c in
  if Ascii.eqb c "\"%char then "\\"
  else if Ascii.eqb c quote then String "\"%char (String quote EmptyString)
  else if (n =? 9)%N then "\t"
  else if (n =? 10)%N then "\n"
  else if (n =? 13)%N then "\r"
  else if ((n <? 32) || (n =? 127))%N then
    String "\"%char
      (String "x"%char
         (String (hex_digit (n / 16)) (String (hex_digit (n mod 16)) EmptyString)))
  else String c EmptyString.

Fixpoint has_char (c : ascii) (s : string) : bool :=
  match s with
  | EmptyString => false
  | String c' s' => Ascii.eqb c c' || has_char c s'
  end.

Fixpoint repr_body (quote : ascii) (s : string) : string :=
  match s with
  | EmptyString => EmptyString
  | String c s' => (repr_char quote c ++ repr_body quote s')%string
  end.

(** [repr(s)] of a string of ASCII characters: single quotes, unless the
    string holds one and no double quote. *)
Definition repr (s : string) : string :=
  let quote :=
    if has_char "'"%char s && negb (has_char double_quote s)
    then double_quote else "'"%char in
  String quote (repr_body quote s ++ String quote EmptyString)%string.

(** The integers from here on, in absolute value, round past the largest
    double: [2**1024 - 2**970]. *)
Definition float_overflow : Z := 2 ^ 1024 - 2 ^ 970.

(** [float(v)].  [parse] is [float] on a string. *)
Definition float (parse : string -> option Q) (v : pyval) : result Q :=
  match v with
  | PyBool b => Ok (if b then 1 else 0)
  | PyInt n =>
      if (float_overflow <=? Z.abs n)%Z
      then Raise (OverflowError "int too large to convert to float")
      else Ok (inject_Z n)
  | PyFloat x => Ok x
  | PyStr s =>
      match parse s with
      | Some x => Ok x
      | None =>
          Raise (ValueError ("could not convert string to float: " ++ repr s)%string)
      end
  | PyNone | PyList _ | PyDict _ =>
      Raise (TypeError ("float() argument must be a string or a real number, not '"
                        ++ type_name v ++ "'")%string)
  end.

(** [int(x)] on a float: truncation toward zero. *)
Definition int (x : Q) : Z := Z.quot (Qnum x) (Zpos (Qden x)).

(** [x > y] and [x < y] on floats. *)
Definition gt (x y : Q) : bool :=
  match x ?= y with Gt => true | _ => false end.
Definition lt (x y : Q) : bool :=
  match x ?= y with Lt => true | _ => false end.

(** [max(a, b)]: the first argument unless the second is greater. *)
Definition max (a b : Q) : Q := if gt b a then b else a.

(** Truth value of a float: zero is false. *)
Definition truthy (x : Q) : bool := negb (Qeq_bool x 0).

Fixpoint chars (s : string) : list pyval :=
  match s with
  | EmptyString => []
  | String c s' => PyStr (String c EmptyString) :: chars s'
  end.

(** The items a [for] loop draws from [v]. *)
Definition iter (v : pyval) : result (list pyval) :=
  match v with
  | PyList l => Ok l
  | PyDict d => Ok (map (fun kv => PyStr (fst kv)) d)
  | PyStr s => Ok (chars s)
  | PyNone | PyBool _ | PyInt _ | PyFloat _ =>
      Raise (TypeError ("'" ++ type_name v ++ "' object is not iterable")%string)
  end.

(** [sorted(l, key=key)]: a stable insertion sort. *)
Section Sorted.
Context {A : Type} (key : A -> Q).

Fixpoint insert (x : A) (l : list A) : list A :=
  match l with
  | [] => [x]
  | y :: l' => if lt (key y) (key x) then y :: insert x l' else x :: l
  end.

Fixpoint sorted (l : list A) : list A :=
  match l with
  | [] => []
  | x :: l' => insert x (sorted l')
  end.

End Sorted.

End Py.
Import Py.

(** ** moviepy and numpy objects

    Only what [processor.py] touches: the clip classes it instantiates, the
    attributes it reads and the methods it calls. *)

Module MoviePy.

(** [VideoFileClip(path)]: an open decoder on a file. *)
Record VideoFileClip : Type := {
  vf_filename : string;
  vf_duration : Q;
  vf_w : Z;
  vf_h : Z;
  vf_has_audio : bool
}.

(** [AudioFileClip(path)] *)
Record AudioFileClip : Type := {
  af_filename : string;
  af_duration : Q
}.

(** [ColorClip(size=..., color=..., duration=...)] *)
Record ColorClip : Type := {
  cc_size : Z * Z;
  cc_color : Z * Z * Z;
  cc_duration : Q
}.

Definition black : Z * Z * Z := (0%Z, 0%Z, 0%Z).

(** What the list [clips] of [create_video_with_gaps] holds. *)
Inductive Segment : Type :=
| Fragment (video : VideoFileClip)
| Filler (empty_clip : ColorClip).

Definition segment_duration (s : Segment) : Q :=
  match s with
  | Fragment v => vf_duration v
  | Filler c => cc_duration c
  end.

Definition segment_has_audio (s : Segment) : bool :=
  match s with
  | Fragment v => vf_has_audio v
  | Filler _ => false
  end.

(** [np.zeros(shape)] for a two-dimensional shape: rows of samples. *)
Definition np_zeros (shape : Z * Z) : result (list (list Q)) :=
  let (rows, cols) := shape in
  if ((rows <? 0) || (cols <? 0))%Z
  then Raise (ValueError "negative dimensions are not allowed")
  else Ok (repeat (repeat 0 (Z.to_nat cols)) (Z.to_nat rows)).

(** An [AudioArrayClip]: its array and frame rate. *)
Record AudioArrayClip : Type := {
  aa_array : list (list Q);
  aa_fps : Z
}.

(** The constructor [AudioArrayClip(array, fps=fps)]: it reads the first row
    to count the channels, which fails on an array without rows. *)
Definition audio_array_clip (array : list (list Q)) (fps : Z)
  : result AudioArrayClip :=
  match array with
  | [] => Raise (IndexError "index 0 is out of bounds for axis 0 with size 0")
  | _ :: _ => Ok {| aa_array := array; aa_fps := fps |}
  end.

(** [len(array) / fps] *)
Definition array_duration (a : AudioArrayClip) : Q :=
  inject_Z (Z.of_nat (List.length (aa_array a))) / inject_Z (aa_fps a).



Inductive AudioSource : Type :=
| FileAudio (audio : AudioFileClip)
| ArrayAudio (audio : AudioArrayClip).

Definition source_duration (a : AudioSource) : Q :=
  match a with
  | FileAudio f => af_duration f
  | ArrayAudio s => array_duration s
  end.

(** [clip.with_start(t)]: the clip placed at [t] on the timeline. *)
Record Scheduled : Type := with_start {
  sch_clip : AudioSource;
  sch_start : Q
}.

(** [clip.end] *)
Definition sch_end (s : Scheduled) : Q :=
  sch_start s + source_duration (sch_clip s).

(** The duration [CompositeAudioClip(clips)] computes: the latest end,
    folded from the left with [max(end, duration or 0)]. *)
Definition composite_duration (clips : list Scheduled) : Q :=
  fold_left (fun duration s => Py.max (sch_end s) duration) clips 0.

Inductive AudioClip : Type :=
| ArrayClip (a : AudioArrayClip)
| CompositeAudioClip (clips : list Scheduled).

Definition audio_duration (a : AudioClip) : Q :=
  match a with
  | ArrayClip s => array_duration s
  | CompositeAudioClip clips => composite_duration clips
  end.

(** The video clip graph. *)
Inductive VideoClip : Type :=
| Color (c : ColorClip)
| concatenate_videoclips (clips : list Segment)   (* method='chain' *)
| with_audio (v : VideoClip) (a : AudioClip)
| Subclip (v : VideoClip) (start_time end_time : Q).   (* v.subclipped(...) *)

(** [np.maximum(a, b)] on two numbers. *)
Definition np_maximum (a b : Q) : Q := if Py.lt a b then b else a.

(** The duration [concatenate_videoclips] gives its result: the last of
    [np.maximum(0, np.cumsum([0] + durations))]. *)
Definition chain_duration (clips : list Segment) : Q :=
  np_maximum 0 (fold_left (fun t s => t + segment_duration s) clips 0).

(** [clip.duration].  A subclip whose end is negative counts it from the
    end of the clip. *)
Fixpoint duration (v : VideoClip) : Q :=
  match v with
  | Color c => cc_duration c
  | concatenate_videoclips clips => chain_duration clips
  | with_audio v' _ => duration v'
  | Subclip v' t0 t1 =>
      let t0' := if Py.lt t0 0 then duration v' + t0 else t0 in
      let t1' := if Py.lt t1 0 then duration v' + t1 else t1 in
      t1' - t0'
  end.

(** [type(clip).__name__]: [with_audio] copies the clip it is called on. *)
Fixpoint class_name (v : VideoClip) : string :=
  match v with
  | Color _ => "ColorClip"
  | concatenate_videoclips _ => "VideoClip"
  | with_audio v' _ => class_name v'
  | Subclip v' _ _ => class_name v'
  end.

(** [clip.subclip(start_time, end_time)].  The module is written against
    moviepy 2 ([from moviepy import ...], [with_start], [with_audio]), whose
    clips have [subclipped] and no [subclip]: the attribute lookup fails. *)
Definition subclip (v : VideoClip) (t0 t1 : Q) : result VideoClip :=
  Raise (AttributeError ("'" ++ class_name v ++ "' object has no attribute 'subclip'")%string).

(** [clip.audio] *)
Inductive AudioTrack : Type :=
| NoAudio
| NativeAudio (clips : list Segment)
| AttachedAudio (a : AudioClip)
| CutAudio (a : AudioTrack) (start_time end_time : Q).

Fixpoint audio (v : VideoClip) : AudioTrack :=
  match v with
  | Color _ => NoAudio
  | concatenate_videoclips clips =>
      if existsb segment_has_audio clips then NativeAudio clips else NoAudio
  | with_audio _ a => AttachedAudio a
  | Subclip v' t0 t1 =>
      match audio v' with
      | NoAudio => NoAudio
      | a => CutAudio a t0 t1
      end
  end.

(** The track a [with_audio] put on the clip, if any. *)
Fixpoint attached_audio (v : VideoClip) : option AudioClip :=
  match v with
  | with_audio _ a => Some a
  | Subclip v' _ _ => attached_audio v'
  | Color _ | concatenate_videoclips _ => None
  end.

(** The segments a clip plays, in order ([Subclip] looks through). *)
Fixpoint segments (v : VideoClip) : list Segment :=
  match v with
  | Color c => [Filler c]
  | concatenate_videoclips clips => clips
  | with_audio v' _ => segments v'
  | Subclip v' _ _ => segments v'
  end.

(** Keyword arguments of [write_videofile]. *)
Record Profile : Type := {
  codec : string;
  audio_codec : string;
  preset : string;
  threads : option Z;
  fps : Z;
  bitrate : string;
  audio_bitrate : string
}.

End MoviePy.
Import MoviePy.

(** ** Effects *)

Module Effects.

Inductive level : Type := INFO | WARNING | ERROR.

(** The messages [processor.py] logs, with the values they format. *)
Inductive logmsg : Type :=
| FailedToDownload (url : pyval)
| FailedToLoadVideo (path : string) (e : exn)
| FailedToLoadAudio (path : string) (e : exn)
| TotalDurationOfClips (total_duration : Q)
| LoadedClips (videos audios : nat)
| FinalVideoDuration (d : Q)
| TotalAudioDuration (d : Q)
| DurationLimit (max_duration : Z)
| WritingFinalVideo (output_path : string)
| FailedToCompile (e : exn).

(** The objects [close()] is called on. *)
Inductive Closable : Type :=
| VideoFragment (clip : VideoFileClip)
| AudioFragment (clip : AudioFileClip)
| Composed (video_result : VideoClip).

Inductive Event : Type :=
| Log (l : level) (m : logmsg)
| Close (c : Closable)
| WriteVideofile (v : VideoClip) (output_path : string) (p : Profile).

(** A computation: the events it emitted, oldest first, and its outcome. *)
Definition M (A : Type) : Type := (list Event * result A)%type.

Definition ret {A} (a : A) : M A := ([], Ok a).
Definition raise {A} (e : exn) : M A := ([], Raise e).
Definition lift {A} (r : result A) : M A := ([], r).
Definition emit (e : Event) : M unit := ([e], Ok tt).

Definition bind {A B} (m : M A) (k : A -> M B) : M B :=
  match m with
  | (t, Ok a) => let (t', r) := k a in (t ++ t', r)
  | (t, Raise e) => (t, Raise e)
  end.

(** [try: body  except Exception as e: handler e] *)
Definition try_except {A} (body : M A) (handler : exn -> M A) : M A :=
  match body with
  | (t, Ok a) => (t, Ok a)
  | (t, Raise e) => let (t', r) := handler e in (t ++ t', r)
  end.

Definition trace {A} (m : M A) : list Event := fst m.
Definition outcome {A} (m : M A) : result A := snd m.

Definition logging (l : level) (m : logmsg) : M unit := emit (Log l m).
Definition close (c : Closable) : M unit := emit (Close c).

Declare Scope monad_scope.
Delimit Scope monad_scope with monad.
Notation "x <- m ;; k" := (bind m (fun x => k))
  (at level 61, m at next level, right associativity) : monad_scope.
Notation "' pat <- m ;; k" := (bind m (fun x => match x with pat => k end))
  (at level 61, pat pattern, m at next level, right associativity) : monad_scope.
Notation "m ;; k" := (bind m (fun _ => k))
  (at level 61, right associativity) : monad_scope.

(** [for x in l: body], the loop carrying the variables it updates. *)
Fixpoint for_each {A S} (l : list A) (body : A -> S -> M S) (s : S) : M S :=
  match l with
  | [] => ret s
  | x :: l' => bind (body x s) (for_each l' body)
  end.

(** What the module reaches outside itself. *)
Record Env : Type := {
  (** [float(s)] on a string. *)
  str_to_float : string -> option Q;
  (** Modelled from the spec: [mtslinker.downloader.download_video_chunk],
      whose source is not part of this development.  The loader contract is
      [fetch(url, destDir) -> path | null]. *)
  download_video_chunk : pyval -> string -> option string;
  (** [os.path.exists] *)
  path_exists : string -> bool;
  (** [VideoFileClip(path)] and [AudioFileClip(path)] *)
  open_video : string -> result VideoFileClip;
  open_audio : string -> result AudioFileClip;
  (** [os.cpu_count()] *)
  cpu_count : option Z;
  (** The encoder behind [write_videofile]: the exception it raises, if any. *)
  encoder : VideoClip -> string -> Profile -> option exn
}.

(** [clip.write_videofile(output_path, **profile)] *)
Definition write_videofile (env : Env) (v : VideoClip) (output_path : string)
    (p : Profile) : M unit :=
  match encoder env v output_path p with
  | Some e => raise e
  | None => emit (WriteVideofile v output_path p)
  end.

End Effects.
Import Effects.
Local Open Scope monad_scope.

(** ** processor.py *)

Definition TimedVideo : Type := (Q * VideoFileClip)%type.
Definition TimedAudio : Type := (Q * AudioFileClip)%type.

(** [ValueError('Duration not found in JSON data.')] *)
Definition duration_not_found : exn :=
  ValueError "Duration not found in JSON data.".

(** Truth value of the path [download_video_chunk] returns. *)
Definition path_truthy (p : option string) : bool :=
  match p with
  | None | Some EmptyString => false
  | Some _ => true
  end.

(** Lines 38-47: the file is tried as video, then as audio. *)
Definition load_clip (env : Env) (start_time : Q) (downloaded_file_path : string)
    (clips : list TimedVideo * list TimedAudio)
  : M (list TimedVideo * list TimedAudio) :=
  let (video_clips, audio_clips) := clips in
  try_except
    (video_clip <- lift (open_video env downloaded_file_path) ;;
     ret (video_clips ++ [(start_time, video_clip)], audio_clips))
    (fun e =>
       logging WARNING (FailedToLoadVideo downloaded_file_path e) ;;
       try_except
         (audio_clip <- lift (open_audio env downloaded_file_path) ;;
          ret (video_clips, audio_clips ++ [(start_time, audio_clip)]))
         (fun audio_e =>
            logging ERROR (FailedToLoadAudio downloaded_file_path audio_e) ;;
            ret (video_clips, audio_clips))).

(** Lines 27-47: the body of the loop over [eventLogs]. *)
Definition process_event (env : Env) (directory : string) (event : pyval)
    (clips : list TimedVideo * list TimedAudio)
  : M (list TimedVideo * list TimedAudio) :=
  match event with
  | PyDict event =>
      match get event "data" (PyDict []) with
      | PyDict data =>
          (* 'url' in data, then data['url'] *)
          match lookup "url" data with
          | Some url =>
              start_time <-
                lift (float (str_to_float env) (get event "relativeTime" (PyInt 0))) ;;
              let downloaded_file_path := download_video_chunk env url directory in
              match downloaded_file_path with
              | Some path =>
                  if negb (path_truthy downloaded_file_path)
                     || negb (path_exists env path)
                  then logging WARNING (FailedToDownload url) ;; ret clips
                  else load_clip env start_time path clips
              | None => logging WARNING (FailedToDownload url) ;; ret clips
              end
          | None => ret clips
          end
      | _ => ret clips
      end
  | _ => ret clips
  end.

Definition process_video_clips (env : Env) (directory : string) (json_data : dict)
  : M (Q * list TimedVideo * list TimedAudio) :=
  total_duration <-
    lift (float (str_to_float env) (get json_data "duration" (PyInt 0))) ;;
  if negb (truthy total_duration) then raise duration_not_found
  else
    events <- lift (iter (get json_data "eventLogs" (PyList []))) ;;
    ' (video_clips, audio_clips) <-
      for_each events (process_event env directory) ([], []) ;;
    logging INFO (TotalDurationOfClips total_duration) ;;
    logging INFO (LoadedClips (List.length video_clips) (List.length audio_clips)) ;;
    ret (total_duration, video_clips, audio_clips).

Definition tolerance : Q := 0.01.

(** Lines 67-76: the walk over the sorted fragments, carrying [clips] and
    [current_time]. *)
Fixpoint walk (width height : Z) (video_clips_sorted : list TimedVideo)
    (clips : list Segment) (current_time : Q) : list Segment * Q :=
  match video_clips_sorted with
  | [] => (clips, current_time)
  | (start_time, video) :: rest =>
      let '(clips, current_time) :=
        if Py.gt start_time current_time then
          let gap_duration := start_time - current_time in
          if Py.gt gap_duration tolerance then
            let empty_clip :=
              {| cc_size := (width, height); cc_color := black;
                 cc_duration := gap_duration |} in
            (clips ++ [Filler empty_clip], current_time + gap_duration)
          else (clips, current_time)
        else (clips, current_time) in
      walk width height rest (clips ++ [Fragment video])
        (current_time + vf_duration video)
  end.

(** Lines 78-82: the trailing filler. *)
Definition pad_tail (width height : Z) (total_duration : Q)
    (clips : list Segment) (current_time : Q) : list Segment :=
  if Py.lt current_time total_duration then
    let remaining_duration := total_duration - current_time in
    if Py.gt remaining_duration tolerance then
      let empty_clip :=
        {| cc_size := (width, height); cc_color := black;
           cc_duration := remaining_duration |} in
      clips ++ [Filler empty_clip]
    else clips
  else clips.

Definition create_video_with_gaps (total_duration : Q)
    (video_clips : list TimedVideo) : M VideoClip :=
  match video_clips with
  | [] =>
      let empty_clip :=
        {| cc_size := (1920, 1080)%Z; cc_color := black;
           cc_duration := total_duration |} in
      ret (Color empty_clip)
  | _ :: _ =>
      let video_clips_sorted := sorted fst video_clips in
      match video_clips_sorted with
      | [] => raise (IndexError "list index out of range")
      | (_, first) :: _ =>
          let width := vf_w first in
          let height := vf_h first in
          let '(clips, current_time) :=
            walk width height video_clips_sorted [] 0 in
          let clips := pad_tail width height total_duration clips current_time in
          let final_video := concatenate_videoclips clips in
          logging INFO (FinalVideoDuration (duration final_video)) ;;
          ret final_video
      end
  end.

(** [AudioArrayClip(np.zeros((int(d * 44100), 2)), fps=44100)].  The sample
    count is taken over exact rationals; in double arithmetic the product can
    fall just below a whole number and the count be one less. *)
Definition silence_of (d : Q) : M AudioArrayClip :=
  array <- lift (np_zeros (Py.int (d * 44100), 2%Z)) ;;
  lift (audio_array_clip array 44100).

(** Lines 97-99 *)
Definition schedule (audio_clips_sorted : list TimedAudio) : list Scheduled :=
  map (fun '(start_time, audio) => with_start (FileAudio audio) start_time)
      audio_clips_sorted.

Definition create_audio_with_gaps (total_duration : Q)
    (audio_clips : list TimedAudio) : M AudioClip :=
  match audio_clips with
  | [] =>
      silence <- silence_of total_duration ;;
      ret (ArrayClip silence)
  | _ :: _ =>
      let audio_clips_sorted := sorted fst audio_clips in
      let audio_segments := schedule audio_clips_sorted in
      let final_audio := CompositeAudioClip audio_segments in
      final_audio <-
        (if Py.lt (audio_duration final_audio) total_duration then
           let silence_duration := total_duration - audio_duration final_audio in
           if Py.gt silence_duration tolerance then
             silence <- silence_of silence_duration ;;
             let silence :=
               with_start (ArrayAudio silence) (audio_duration final_audio) in
             let audio_segments := audio_segments ++ [silence] in
             ret (CompositeAudioClip audio_segments)
           else ret final_audio
         else ret final_audio) ;;
      logging INFO (TotalAudioDuration (audio_duration final_audio)) ;;
      ret final_audio
  end.

Definition profile (env : Env) : Profile :=
  {| codec := "libx264"; audio_codec := "aac"; preset := "medium";
     threads := cpu_count env; fps := 24; bitrate := "5000k";
     audio_bitrate := "192k" |}.

(** Truth value of [max_duration : Union[int, None]]. *)
Definition limit_set (max_duration : option Z) : option Z :=
  match max_duration with
  | Some 0%Z | None => None
  | Some m => Some m
  end.

(** Lines 117-121: the video timeline, with the audio track attached when
    there are audio fragments. *)
Definition compose (total_duration : Q) (video_clips : list TimedVideo)
    (audio_clips : list TimedAudio) : M VideoClip :=
  video_result <- create_video_with_gaps total_duration video_clips ;;
  match audio_clips with
  | _ :: _ =>
      combined_audio <- create_audio_with_gaps total_duration audio_clips ;;
      ret (with_audio video_result combined_audio)
  | [] => ret video_result
  end.

(** Lines 123-126 *)
Definition apply_limit (video_result : VideoClip) (max_duration : option Z)
  : M VideoClip :=
  match limit_set max_duration with
  | Some m =>
      if Py.gt (duration video_result) (inject_Z m) then
        logging INFO (DurationLimit m) ;;
        lift (subclip video_result 0 (inject_Z m))
      else ret video_result
  | None => ret video_result
  end.

(** Lines 140-144 *)
Definition release (video_result : VideoClip) (video_clips : list TimedVideo)
    (audio_clips : list TimedAudio) : M unit :=
  close (Composed video_result) ;;
  for_each video_clips (fun '(_, clip) _ => close (VideoFragment clip)) tt ;;
  for_each audio_clips (fun '(_, clip) _ => close (AudioFragment clip)) tt.

(** Lines 117-144: the body of the [try]. *)
Definition compile_body (env : Env) (total_duration : Q)
    (video_clips : list TimedVideo) (audio_clips : list TimedAudio)
    (output_path : string) (max_duration : option Z) : M unit :=
  video_result <- compose total_duration video_clips audio_clips ;;
  video_result <- apply_limit video_result max_duration ;;
  logging INFO (WritingFinalVideo output_path) ;;
  write_videofile env video_result output_path (profile env) ;;
  release video_result video_clips audio_clips.

Definition compile_final_video (env : Env) (total_duration : Q)
    (video_clips : list TimedVideo) (audio_clips : list TimedAudio)
    (output_path : string) (max_duration : option Z) : M unit :=
  try_except
    (compile_body env total_duration video_clips audio_clips output_path
       max_duration)
    (fun e => logging ERROR (FailedToCompile e) ;; raise e).

(** ** The specification's words

    Definitions that follow the specification rather than the source; the
    theorems below compare them with the functions above. *)

Module Spec.

(** §4.2, the walk: a filler of the gap when it exceeds the tolerance, then
    the fragment, the clock advancing by what was appended. *)
Inductive timeline (width height : Z)
  : Q -> list TimedVideo -> list Segment -> Q -> Prop :=
| timeline_end (t : Q) : timeline width height t [] [] t
| timeline_gap (t start_time : Q) (video : VideoFileClip) rest segs t' :
    tolerance < start_time - t ->
    timeline width height (t + (start_time - t) + vf_duration video) rest segs t' ->
    timeline width height t ((start_time, video) :: rest)
      (Filler {| cc_size := (width, height); cc_color := black;
                 cc_duration := start_time - t |}
       :: Fragment video :: segs) t'
| timeline_abut (t start_time : Q) (video : VideoFileClip) rest segs t' :
    start_time - t <= tolerance ->
    timeline width height (t + vf_duration video) rest segs t' ->
    timeline width height t ((start_time, video) :: rest)
      (Fragment video :: segs) t'.

(** Total playing time of a sequence of segments. *)
Fixpoint playing_time (segs : list Segment) : Q :=
  match segs with
  | [] => 0
  | s :: segs' => segment_duration s + playing_time segs'
  end.

(** The real fragments among the segments, in order. *)
Fixpoint fragments (segs : list Segment) : list VideoFileClip :=
  match segs with
  | [] => []
  | Fragment v :: segs' => v :: fragments segs'
  | Filler _ :: segs' => fragments segs'
  end.

(** The synthetic fillers among the segments, in order. *)
Fixpoint fillers (segs : list Segment) : list ColorClip :=
  match segs with
  | [] => []
  | Fragment _ :: segs' => fillers segs'
  | Filler c :: segs' => c :: fillers segs'
  end.

(** Sum of the fragments' own durations. *)
Fixpoint footage (video_clips : list TimedVideo) : Q :=
  match video_clips with
  | [] => 0
  | (_, v) :: rest => vf_duration v + footage rest
  end.

Definition ascending {A} (l : list (Q * A)) : Prop :=
  StronglySorted (fun a b => fst a <= fst b) l.



(** §4.3: silence for [d] seconds, in whole stereo samples at 44100 Hz. *)
Definition zeros (d : Q) : AudioArrayClip :=
  {| aa_array := repeat [0; 0] (Z.to_nat (Py.int (d * 44100)));
     aa_fps := 44100 |}.


(** One sample period at 44100 Hz. *)
Definition sample_period : Q := 1 # 44100.

(** §4.1, §6: the URL an event carries, if it has a usable one. *)
Definition event_url (event : pyval) : option pyval :=
  match event with
  | PyDict event =>
      match get event "data" (PyDict []) with
      | PyDict data => lookup "url" data
      | _ => None
      end
  | _ => None
  end.

(** §6: the event's [relativeTime], 0 when it has none. *)
Definition event_time (env : Env) (event : pyval) : result Q :=
  match event with
  | PyDict event =>
      float (str_to_float env) (get event "relativeTime" (PyInt 0))
  | _ => Ok 0
  end.

(** §6, loader boundary: a path, or nothing when the download failed or the
    file is missing. *)
Definition fetch (env : Env) (url : pyval) (directory : string) : option string :=
  match download_video_chunk env url directory with
  | Some path =>
      if path_truthy (Some path) && path_exists env path then Some path else None
  | None => None
  end.

(** What becomes of one event (§4.1, §7). *)
Inductive Fate : Type :=
| Ignored
| Malformed (e : exn)
| NotDownloaded (url : pyval)
| Video (start_time : Q) (clip : VideoFileClip)
| Audio (start_time : Q) (path : string) (video_error : exn) (clip : AudioFileClip)
| Unreadable (path : string) (video_error audio_error : exn).

Definition fate (env : Env) (directory : string) (event : pyval) : Fate :=
  match event_url event with
  | None => Ignored
  | Some url =>
      match event_time env event with
      | Raise e => Malformed e
      | Ok start_time =>
          match fetch env url directory with
          | None => NotDownloaded url
          | Some path =>
              match open_video env path with
              | Ok clip => Video start_time clip
              | Raise video_error =>
                  match open_audio env path with
                  | Ok clip => Audio start_time path video_error clip
                  | Raise audio_error => Unreadable path video_error audio_error
                  end
              end
          end
      end
  end.

Definition fate_videos (f : Fate) : list TimedVideo :=
  match f with
  | Video start_time clip => [(start_time, clip)]
  | _ => []
  end.

Definition fate_audios (f : Fate) : list TimedAudio :=
  match f with
  | Audio start_time _ _ clip => [(start_time, clip)]
  | _ => []
  end.

(** §7: "logged warnings for every skipped fragment". *)
Definition fate_log (f : Fate) : list Event :=
  match f with
  | Ignored | Malformed _ | Video _ _ => []
  | NotDownloaded url => [Log WARNING (FailedToDownload url)]
  | Audio _ path video_error _ => [Log WARNING (FailedToLoadVideo path video_error)]
  | Unreadable path video_error audio_error =>
      [Log WARNING (FailedToLoadVideo path video_error);
       Log ERROR (FailedToLoadAudio path audio_error)]
  end.

(** The clips handed to the encoder and written, in order. *)
Fixpoint written (t : list Event) : list VideoClip :=
  match t with
  | [] => []
  | WriteVideofile v _ _ :: t' => v :: written t'
  | _ :: t' => written t'
  end.

(** The objects released, in order. *)
Fixpoint closed (t : list Event) : list Closable :=
  match t with
  | [] => []
  | Close c :: t' => c :: closed t'
  | _ :: t' => closed t'
  end.

(** The fragment handles passed to the Compiler. *)
Definition handles (video_clips : list TimedVideo) (audio_clips : list TimedAudio)
  : list Closable :=
  map (fun c => VideoFragment (snd c)) video_clips
  ++ map (fun c => AudioFragment (snd c)) audio_clips.

Definition readable (f : Fate) : Prop :=
  match f with
  | Malformed _ => False
  | _ => True
  end.

End Spec.
Import Spec.

(** ** Sample data *)

Module Sample.

Definition clip_a : VideoFileClip :=
  {| vf_filename := "a.mp4"; vf_duration := 4; vf_w := 640; vf_h := 480;
     vf_has_audio := true |}.

Definition clip_b : VideoFileClip :=
  {| vf_filename := "b.mp4"; vf_duration := 12; vf_w := 640; vf_h := 480;
     vf_has_audio := false |}.

Definition sound_a : AudioFileClip :=
  {| af_filename := "a.mp3"; af_duration := 3 |}.

Definition sound_b : AudioFileClip :=
  {| af_filename := "b.mp3"; af_duration := 1 |}.

(** Every download fails; the encoder accepts everything. *)
Definition offline : Env :=
  {| str_to_float := fun _ => None;
     download_video_chunk := fun _ _ => None;
     path_exists := fun _ => false;
     open_video := fun _ => Raise (OSError "no such file");
     open_audio := fun _ => Raise (OSError "no such file");
     cpu_count := Some 4%Z;
     encoder := fun _ _ _ => None |}.

(** As [offline], with an encoder that fails. *)
Definition broken_encoder : Env :=
  {| str_to_float := fun _ => None;
     download_video_chunk := fun _ _ => None;
     path_exists := fun _ => false;
     open_video := fun _ => Raise (OSError "no such file");
     open_audio := fun _ => Raise (OSError "no such file");
     cpu_count := Some 4%Z;
     encoder := fun _ _ _ => Some (OSError "ffmpeg exited") |}.

(** Downloads land in the directory under the name the URL gives; [a.mp4]
    decodes as video, [a.mp3] only as audio, nothing else decodes. *)
Definition online : Env :=
  {| str_to_float := fun _ => None;
     download_video_chunk := fun url directory =>
       match url with
       | PyStr name => Some (directory ++ "/" ++ name)%string
       | _ => None
       end;
     path_exists := fun path => negb (String.eqb path "tmp/lost.mp4");
     open_video := fun path =>
       if String.eqb path "tmp/a.mp4" then Ok clip_a
       else Raise (OSError "not a video");
     open_audio := fun path =>
       if String.eqb path "tmp/a.mp3" then Ok sound_a
       else Raise (OSError "not an audio file");
     cpu_count := Some 4%Z;
     encoder := fun _ _ _ => None |}.

Definition event (relativeTime : pyval) (name : string) : pyval :=
  PyDict [("relativeTime", relativeTime); ("data", PyDict [("url", PyStr name)])].

(** A recording with one video, one audio, one unreadable and one lost file,
    and an event without URL. *)
Definition recording : dict :=
  [("duration", PyFloat 10);
   ("eventLogs",
    PyList [event (PyInt 3) "a.mp4"; event (PyFloat 0.5) "a.mp3";
            event (PyInt 1) "junk.bin"; event (PyInt 2) "lost.mp4";
            PyDict [("data", PyDict [])]; PyInt 7])].

End Sample.

(** ** Shapes of input *)

Module Shape.

(** Fragments in start order that do not overlap: each starts no earlier
    than [t], the nominal end of the one before. *)
Fixpoint disjoint_from (t : Q) (l : list TimedVideo) : Prop :=
  match l with
  | [] => True
  | (start_time, video) :: rest =>
      t <= start_time /\ disjoint_from (start_time + vf_duration video) rest
  end.

(** The nominal end of the last fragment, [t] when there is none. *)
Fixpoint last_end (t : Q) (l : list TimedVideo) : Q :=
  match l with
  | [] => t
  | (start_time, video) :: rest => last_end (start_time + vf_duration video) rest
  end.

(** Fragments each starting at most the tolerance after the playing time of
    those before it, counted from [t]. *)
Fixpoint abutting (t : Q) (l : list TimedVideo) : Prop :=
  match l with
  | [] => True
  | (start_time, video) :: rest =>
      start_time - t <= tolerance /\ abutting (t + vf_duration video) rest
  end.

(** No two fillers next to each other. *)
Fixpoint fillers_apart (segs : list Segment) : Prop :=
  match segs with
  | [] => True
  | Fragment _ :: rest => fillers_apart rest
  | Filler _ :: rest =>
      match rest with
      | Filler _ :: _ => False
      | _ => fillers_apart rest
      end
  end.



(** Items with equal keys are the same item. *)
Definition keyed {A} (l : list (Q * A)) : Prop :=
  forall a b, In a l -> In b l -> fst a == fst b -> a = b.

(** The events up to the first whose timestamp [float] refuses. *)
Inductive aborts_at (env : Env) (directory : string) (e : exn)
  : list pyval -> list pyval -> Prop :=
| aborts_here event rest :
    fate env directory event = Malformed e ->
    aborts_at env directory e (event :: rest) []
| aborts_later event rest done :
    readable (fate env directory event) ->
    aborts_at env directory e rest done ->
    aborts_at env directory e (event :: rest) (event :: done).

End Shape.
Import Shape.

(** * Properties *)

(** ** Python comparisons and conversions *)

Lemma gt_true_iff (x y : Q) : Py.gt x y = true <-> y < x.
Proof.
  unfold Py.gt. destruct (Qcompare_spec x y) as [H|H|H];
    split; intro; try discriminate; try reflexivity; lra.
Qed.

Lemma gt_false_iff (x y : Q) : Py.gt x y = false <-> x <= y.
Proof.
  unfold Py.gt. destruct (Qcompare_spec x y) as [H|H|H];
    split; intro; try discriminate; try reflexivity; lra.
Qed.

Lemma lt_true_iff (x y : Q) : Py.lt x y = true <-> x < y.
Proof.
  unfold Py.lt. destruct (Qcompare_spec x y) as [H|H|H];
    split; intro; try discriminate; try reflexivity; lra.
Qed.

Lemma lt_false_iff (x y : Q) : Py.lt x y = false <-> y <= x.
Proof.
  unfold Py.lt. destruct (Qcompare_spec x y) as [H|H|H];
    split; intro; try discriminate; try reflexivity; lra.
Qed.

(** Case analysis on every Python comparison in the goal. *)
Ltac py_compare :=
  repeat match goal with
  | |- context [Py.gt ?x ?y] =>
      let E := fresh "E" in
      destruct (Py.gt x y) eqn:E;
      [apply gt_true_iff in E | apply gt_false_iff in E]
  | |- context [Py.lt ?x ?y] =>
      let E := fresh "E" in
      destruct (Py.lt x y) eqn:E;
      [apply lt_true_iff in E | apply lt_false_iff in E]
  end.

(** Case analysis on every [Qmax] in the goal. *)
Ltac qmax_cases :=
  repeat match goal with
  | |- context [Qmax ?x ?y] =>
      let H := fresh "H" in
      let H' := fresh "H" in
      destruct (Q.max_spec x y) as [[H H']|[H H']];
      revert H H'; generalize (Qmax x y); intro
  end;
  intros.

Lemma truthy_false_iff (x : Q) : truthy x = false <-> x == 0.
Proof.
  unfold truthy. rewrite negb_false_iff. apply Qeq_bool_iff.
Qed.

Lemma int_floor (x : Q) : 0 <= x -> Py.int x = Qfloor x.
Proof.
  destruct x as [n d]. unfold Qle, Py.int, Qfloor. simpl. intro H.
  apply Z.quot_div_nonneg; lia.
Qed.

Lemma int_nonneg (x : Q) : 0 <= x -> (0 <= Py.int x)%Z.
Proof.
  intro H. rewrite int_floor by assumption.
  change 0%Z with (Qfloor 0). apply Qfloor_resp_le. assumption.
Qed.

(** [int] drops less than one unit. *)
Lemma int_bounds (x : Q) :
  0 <= x -> inject_Z (Py.int x) <= x /\ x < inject_Z (Py.int x) + 1.
Proof.
  intro H. rewrite int_floor by assumption. split.
  - apply Qfloor_le.
  - pose proof (Qlt_floor x) as L. rewrite inject_Z_plus in L. exact L.
Qed.

(** ** [sorted] *)

Section SortedFacts.
Context {A : Type} (key : A -> Q).

Let le_key (a b : A) : Prop := key a <= key b.

Lemma insert_perm (x : A) (l : list A) : Permutation (insert key x l) (x :: l).
Proof.
  induction l as [|y l IH]; simpl.
  - reflexivity.
  - destruct (Py.lt (key y) (key x)).
    + rewrite IH. apply perm_swap.
    + reflexivity.
Qed.

Lemma sorted_perm (l : list A) : Permutation (sorted key l) l.
Proof.
  induction l as [|x l IH]; simpl.
  - reflexivity.
  - rewrite insert_perm. now constructor.
Qed.

Lemma insert_ascending (x : A) (l : list A) :
  StronglySorted le_key l -> StronglySorted le_key (insert key x l).
Proof.
  induction 1 as [|y l Hl IH Hy]; simpl.
  - repeat constructor.
  - destruct (Py.lt (key y) (key x)) eqn:E.
    + apply lt_true_iff in E. constructor; [exact IH|].
      apply (Permutation_Forall (x := x :: l)).
      * symmetry. apply insert_perm.
      * constructor; [unfold le_key; lra | exact Hy].
    + apply lt_false_iff in E. constructor.
      * now constructor.
      * constructor; [exact E|].
        eapply Forall_impl; [|exact Hy].
        unfold le_key. intros a Ha. lra.
Qed.

Lemma sorted_ascending (l : list A) : StronglySorted le_key (sorted key l).
Proof.
  induction l as [|x l IH]; simpl.
  - constructor.
  - now apply insert_ascending.
Qed.

Lemma sorted_nil_inv (l : list A) : sorted key l = [] -> l = [].
Proof.
  intro H. apply Permutation_nil. rewrite <- H. apply sorted_perm.
Qed.
End SortedFacts.

(** ** The monad *)

Lemma bind_ok {A B} (t : list Event) (a : A) (k : A -> M B) :
  bind (t, Ok a) k = (t ++ trace (k a), outcome (k a)).
Proof.
  simpl. now destruct (k a).
Qed.

(** ** The video timeline *)

Lemma playing_time_app (l l' : list Segment) :
  playing_time (l ++ l') == playing_time l + playing_time l'.
Proof.
  induction l as [|s l IH]; simpl; lra.
Qed.

Lemma fold_chain (l : list Segment) (t : Q) :
  fold_left (fun t s => t + segment_duration s) l t == t + playing_time l.
Proof.
  revert t. induction l as [|s l IH]; intro t; simpl.
  - lra.
  - rewrite IH. lra.
Qed.

Lemma chain_duration_playing_time (l : list Segment) :
  chain_duration l == Qmax 0 (playing_time l).
Proof.
  unfold chain_duration, np_maximum.
  pose proof (fold_chain l 0) as H. revert H.
  generalize (fold_left (fun t s => t + segment_duration s) l 0).
  intros x H. py_compare; qmax_cases; lra.
Qed.

Lemma fragments_app (l l' : list Segment) :
  fragments (l ++ l') = fragments l ++ fragments l'.
Proof.
  induction l as [|[v|c] l IH]; simpl; congruence.
Qed.

Lemma footage_perm (l l' : list TimedVideo) :
  Permutation l l' -> footage l == footage l'.
Proof.
  induction 1 as [|[s v] l l' _ IH|[s v] [s' v'] l|l l' l'' _ IH _ IH'];
    simpl; lra.
Qed.

(** The loop of lines 67-76 appends to [clips] what the specification's walk
    produces. *)
Lemma walk_timeline (width height : Z) (l : list TimedVideo)
    (clips : list Segment) (t : Q) :
  exists segs t',
    walk width height l clips t = (clips ++ segs, t')
    /\ timeline width height t l segs t'.
Proof.
  revert clips t. induction l as [|[start_time video] l IH]; intros clips t.
  - exists [], t. simpl. rewrite app_nil_r. split; [reflexivity|constructor].
  - simpl. destruct (Py.gt start_time t) eqn:E1.
    + destruct (Py.gt (start_time - t) tolerance) eqn:E2.
      * destruct (IH ((clips ++ [Filler {| cc_size := (width, height);
                                            cc_color := black;
                                            cc_duration := start_time - t |}])
                        ++ [Fragment video])
                     (t + (start_time - t) + vf_duration video))
          as (segs & t' & Hw & Ht).
        eexists; exists t'. split.
        -- rewrite Hw. rewrite <- !app_assoc. simpl. reflexivity.
        -- apply timeline_gap; [now apply gt_true_iff in E2 | exact Ht].
      * destruct (IH (clips ++ [Fragment video]) (t + vf_duration video))
          as (segs & t' & Hw & Ht).
        eexists; exists t'. split.
        -- rewrite Hw. rewrite <- app_assoc. simpl. reflexivity.
        -- apply timeline_abut; [now apply gt_false_iff in E2 | exact Ht].
    + destruct (IH (clips ++ [Fragment video]) (t + vf_duration video))
        as (segs & t' & Hw & Ht).
      eexists; exists t'. split.
      * rewrite Hw. rewrite <- app_assoc. simpl. reflexivity.
      * apply timeline_abut; [|exact Ht].
        apply gt_false_iff in E1. unfold tolerance. lra.
Qed.

(** The clock of the walk is the playing time of what it appended. *)
Lemma timeline_clock (width height : Z) t l segs t' :
  timeline width height t l segs t' -> t' == t + playing_time segs.
Proof.
  induction 1 as [t|t s v rest segs t' Hgap _ IH|t s v rest segs t' Hgap _ IH];
    simpl.
  - lra.
  - rewrite IH. lra.
  - rewrite IH. lra.
Qed.

(** Fragments come out unchanged and in the order they went in. *)
Lemma timeline_fragments (width height : Z) t l segs t' :
  timeline width height t l segs t' -> fragments segs = map snd l.
Proof.
  induction 1; simpl; congruence.
Qed.

(** Every filler of the walk is black, of the given frame size, and longer
    than the tolerance. *)
Lemma timeline_fillers (width height : Z) t l segs t' :
  timeline width height t l segs t' ->
  Forall (fun c => cc_size c = (width, height) /\ cc_color c = black
                   /\ tolerance < cc_duration c) (fillers segs).
Proof.
  induction 1; simpl; auto.
Qed.

Lemma timeline_footage (width height : Z) t l segs t' :
  timeline width height t l segs t' -> footage l <= playing_time segs.
Proof.
  induction 1 as [t|t s v rest segs t' Hgap _ IH|t s v rest segs t' Hgap _ IH];
    simpl.
  - lra.
  - unfold tolerance in Hgap. lra.
  - lra.
Qed.

(** The shape of the result on a non-empty list. *)
Lemma create_video_with_gaps_cons (total_duration : Q)
    (video_clips : list TimedVideo) :
  video_clips <> [] ->
  exists start_time first rest segs t,
    sorted fst video_clips = (start_time, first) :: rest
    /\ timeline (vf_w first) (vf_h first) 0 (sorted fst video_clips) segs t
    /\ create_video_with_gaps total_duration video_clips =
       (let final_video :=
          concatenate_videoclips
            (pad_tail (vf_w first) (vf_h first) total_duration segs t) in
        ([Log INFO (FinalVideoDuration (duration final_video))], Ok final_video)).
Proof.
  intro Hne. unfold create_video_with_gaps.
  destruct video_clips as [|c cs]; [congruence|].
  destruct (sorted fst (c :: cs)) as [|[start_time first] rest] eqn:Hs.
  - apply sorted_nil_inv in Hs. discriminate.
  - destruct (walk_timeline (vf_w first) (vf_h first)
                ((start_time, first) :: rest) [] 0) as (segs & t & Hw & Ht).
    exists start_time, first, rest, segs, t.
    split; [reflexivity|]. split; [exact Ht|].
    rewrite Hw. reflexivity.
Qed.

Lemma pad_tail_cases (width height : Z) (total_duration : Q)
    (clips : list Segment) (t : Q) :
  (tolerance < total_duration - t
   /\ pad_tail width height total_duration clips t =
      clips ++ [Filler {| cc_size := (width, height); cc_color := black;
                          cc_duration := total_duration - t |}])
  \/ (total_duration - t <= tolerance
      /\ pad_tail width height total_duration clips t = clips).
Proof.
  unfold pad_tail. py_compare; unfold tolerance in *; auto.
  right. split; [lra|reflexivity].
Qed.

(** A gap below the tolerance leaves the fragment directly at the head. *)
Lemma timeline_jitter (width height : Z) t start_time video rest segs t' :
  timeline width height t ((start_time, video) :: rest) segs t' ->
  start_time - t < tolerance ->
  exists segs', segs = Fragment video :: segs'.
Proof.
  intros H Hlt. inversion H; subst.
  - lra.
  - eauto.
Qed.

(** C8: on an empty fragment list [create_video_with_gaps] returns one black
    filler of duration [total_duration] at 1920x1080, and nothing else. *)
Theorem create_video_with_gaps_empty (total_duration : Q) :
  let filler := {| cc_size := (1920, 1080)%Z; cc_color := black;
                   cc_duration := total_duration |} in
  create_video_with_gaps total_duration [] = ([], Ok (Color filler))
  /\ segments (Color filler) = [Filler filler]
  /\ duration (Color filler) = total_duration
  /\ cc_color filler = (0, 0, 0)%Z.
Proof.
  repeat split.
Qed.

(** C3: on a non-empty list [create_video_with_gaps] sorts the fragments by
    start time and walks them from clock 0.0 as the specification says: a
    black filler of exactly [start_time - current_time] before a fragment
    when that gap exceeds 0.01 s, none otherwise, then the fragment itself,
    the clock advancing by the durations appended.  The fragments reach the
    result unchanged, in sorted order; the clock is the playing time so far,
    so a fragment that starts before it is not moved or cut. *)
Theorem create_video_with_gaps_walk (total_duration : Q)
    (video_clips : list TimedVideo) :
  video_clips <> [] ->
  exists start_time first rest segs t tail,
    let ordered := (start_time, first) :: rest in
    ordered = sorted fst video_clips
    /\ Permutation ordered video_clips
    /\ ascending ordered
    /\ timeline (vf_w first) (vf_h first) 0 ordered segs t
    /\ t == playing_time segs
    /\ Forall (fun c => cc_size c = (vf_w first, vf_h first)
                        /\ cc_color c = black /\ tolerance < cc_duration c)
              (fillers segs)
    /\ fragments (segs ++ tail) = map snd ordered
    /\ (tail = []
        \/ tail = [Filler {| cc_size := (vf_w first, vf_h first);
                             cc_color := black;
                             cc_duration := total_duration - t |}])
    /\ outcome (create_video_with_gaps total_duration video_clips)
       = Ok (concatenate_videoclips (segs ++ tail)).
Proof.
  intro Hne.
  destruct (create_video_with_gaps_cons total_duration video_clips Hne)
    as (start_time & first & rest & segs & t & Hs & Ht & Hrun).
  pose proof (timeline_clock _ _ _ _ _ _ Ht) as Hclock.
  pose proof (timeline_fragments _ _ _ _ _ _ Ht) as Hfrag.
  rewrite Hs in Ht, Hfrag.
  destruct (pad_tail_cases (vf_w first) (vf_h first) total_duration segs t)
    as [[_ Hpad]|[_ Hpad]].
  - exists start_time, first, rest, segs, t.
    exists [Filler {| cc_size := (vf_w first, vf_h first); cc_color := black;
                      cc_duration := total_duration - t |}].
    cbv zeta.
    split; [now symmetry|].
    split; [rewrite <- Hs; apply sorted_perm|].
    split; [rewrite <- Hs; apply (sorted_ascending fst)|].
    split; [exact Ht|].
    split; [lra|].
    split; [exact (timeline_fillers _ _ _ _ _ _ Ht)|].
    split; [rewrite fragments_app, Hfrag; simpl fragments; apply app_nil_r|].
    split; [right; reflexivity|].
    rewrite Hrun, Hpad. reflexivity.
  - exists start_time, first, rest, segs, t, []. cbv zeta.
    split; [now symmetry|].
    split; [rewrite <- Hs; apply sorted_perm|].
    split; [rewrite <- Hs; apply (sorted_ascending fst)|].
    split; [exact Ht|].
    split; [lra|].
    split; [exact (timeline_fillers _ _ _ _ _ _ Ht)|].
    split; [rewrite app_nil_r; exact Hfrag|].
    split; [left; reflexivity|].
    rewrite Hrun, Hpad, app_nil_r. reflexivity.
Qed.

Lemma create_video_with_gaps_walk_witness :
  [(3, Sample.clip_a)] <> []
  /\ exists segs tail,
       timeline 640 480 0 [(3, Sample.clip_a)] segs (0 + (3 - 0) + 4)
       /\ outcome (create_video_with_gaps 10 [(3, Sample.clip_a)])
          = Ok (concatenate_videoclips (segs ++ tail)).
Proof.
  split; [discriminate|].
  destruct (create_video_with_gaps_walk 10 [(3, Sample.clip_a)])
    as (start_time & first & rest & segs & t & tail & Hs & _ & _ & Ht & _ & _ & _ & _ & Hrun);
    [discriminate|].
  simpl in Hs. injection Hs as -> -> ->.
  exists segs, tail. split; [|exact Hrun].
  inversion Ht as [|? ? ? ? ? ? Hgap Hrest|? ? ? ? ? ? Hgap Hrest]; subst.
  - inversion Hrest; subst. apply timeline_gap; [exact Hgap|constructor].
  - exfalso. unfold tolerance in Hgap. revert Hgap. vm_compute. intro H. apply H. reflexivity.
Defined.

(** C4: on a non-empty list (and positive [total_duration]) the timeline that
    [create_video_with_gaps] returns lasts at least [total_duration - 0.01];
    it also lasts at least as long as the fragments together, so it exceeds
    [total_duration] when they overshoot: nothing is trimmed. *)
Theorem create_video_with_gaps_covers (total_duration : Q)
    (video_clips : list TimedVideo) :
  video_clips <> [] ->
  0 < total_duration ->
  exists final_video,
    outcome (create_video_with_gaps total_duration video_clips) = Ok final_video
    /\ total_duration - tolerance <= duration final_video
    /\ footage video_clips <= duration final_video
    /\ (total_duration < footage video_clips ->
        total_duration < duration final_video).
Proof.
  intros Hne _.
  destruct (create_video_with_gaps_cons total_duration video_clips Hne)
    as (start_time & first & rest & segs & t & Hs & Ht & Hrun).
  pose proof (timeline_clock _ _ _ _ _ _ Ht) as Hclock.
  pose proof (timeline_footage _ _ _ _ _ _ Ht) as Hfoot.
  rewrite (footage_perm _ _ (sorted_perm fst video_clips)) in Hfoot.
  eexists. split; [rewrite Hrun; reflexivity|].
  simpl duration. rewrite chain_duration_playing_time.
  destruct (pad_tail_cases (vf_w first) (vf_h first) total_duration segs t)
    as [[Hgap ->]|[Hgap ->]].
  - rewrite playing_time_app. simpl. unfold tolerance in *.
    qmax_cases; repeat split; lra.
  - unfold tolerance in *. qmax_cases; repeat split; lra.
Qed.

Lemma create_video_with_gaps_covers_witness :
  [(3, Sample.clip_a)] <> [] /\ 0 < 10
  /\ exists final_video,
       outcome (create_video_with_gaps 10 [(3, Sample.clip_a)]) = Ok final_video
       /\ 10 - tolerance <= duration final_video.
Proof.
  split; [discriminate|]. split; [reflexivity|].
  destruct (create_video_with_gaps_covers 10 [(3, Sample.clip_a)])
    as (v & Hrun & Hlong & _); [discriminate|reflexivity|].
  exists v. split; assumption.
Defined.

(** The timeline does exceed [total_duration] when a fragment overshoots. *)
Example create_video_with_gaps_overshoots :
  exists final_video,
    outcome (create_video_with_gaps 10 [(3, Sample.clip_b)]) = Ok final_video
    /\ duration final_video == 15.
Proof.
  eexists. split; reflexivity.
Qed.

(** A fragment that starts before the clock is appended whole, after the
    fragment it overlaps. *)
Example create_video_with_gaps_keeps_overlap :
  outcome (create_video_with_gaps 10 [(3, Sample.clip_a); (1, Sample.clip_b)])
  = Ok (concatenate_videoclips
          [Filler {| cc_size := (640, 480)%Z; cc_color := black;
                     cc_duration := 1 - 0 |};
           Fragment Sample.clip_b; Fragment Sample.clip_a]).
Proof.
  reflexivity.
Qed.

(** ** The audio track *)



Lemma composite_duration_app (l : list Scheduled) (s : Scheduled) :
  composite_duration (l ++ [s]) = Py.max (sch_end s) (composite_duration l).
Proof.
  unfold composite_duration. rewrite fold_left_app. reflexivity.
Qed.



Lemma np_zeros_ok (rows : Z) :
  (0 <= rows)%Z ->
  np_zeros (rows, 2%Z) = Ok (repeat [0; 0] (Z.to_nat rows)).
Proof.
  intro H. unfold np_zeros.
  destruct (rows <? 0)%Z eqn:E; [apply Z.ltb_lt in E; lia|reflexivity].
Qed.

(** [int] of a number from 1 upwards is at least 1. *)
Lemma int_positive (x : Q) : 1 <= x -> (1 <= Py.int x)%Z.
Proof.
  intro H. rewrite int_floor by lra.
  change 1%Z with (Qfloor 1). apply Qfloor_resp_le. assumption.
Qed.

Lemma zeros_rows (d : Q) :
  1 <= d * 44100 -> exists row rows, aa_array (zeros d) = row :: rows.
Proof.
  intro H. apply int_positive in H. unfold zeros. simpl.
  destruct (Z.to_nat (Py.int (d * 44100))) eqn:E; [lia|].
  simpl. eauto.
Qed.

(** From one sample upwards the silent clip is built. *)
Lemma silence_of_ok (d : Q) :
  1 <= d * 44100 -> silence_of d = ([], Ok (zeros d)).
Proof.
  intro H. unfold silence_of.
  rewrite np_zeros_ok by (apply int_nonneg; lra).
  destruct (zeros_rows d H) as (row & rows & Hz).
  unfold zeros in *. simpl in Hz. unfold lift at 1. rewrite bind_ok.
  unfold audio_array_clip. rewrite Hz. reflexivity.
Qed.

Lemma zeros_duration (d : Q) :
  0 <= d -> array_duration (zeros d) == inject_Z (Py.int (d * 44100)) / 44100.
Proof.
  intro H. unfold array_duration, zeros. simpl.
  rewrite repeat_length, Z2Nat.id by (apply int_nonneg; lra).
  reflexivity.
Qed.

(** [int] rounds the sample count down: the clip is shorter than asked by
    less than one sample period. *)
Lemma zeros_duration_bounds (d : Q) :
  0 <= d ->
  array_duration (zeros d) <= d /\ d - sample_period < array_duration (zeros d).
Proof.
  intro H. rewrite zeros_duration by assumption.
  destruct (int_bounds (d * 44100)) as [Hlo Hhi]; [lra|].
  revert Hlo Hhi. generalize (inject_Z (Py.int (d * 44100))). intros n Hlo Hhi.
  unfold sample_period. split.
  - apply Qle_shift_div_r; lra.
  - apply Qlt_shift_div_l; [lra|].
    setoid_replace ((d - (1 # 44100)) * 44100) with (d * 44100 - 1) by ring.
    lra.
Qed.



(** The shape of the result on a non-empty list. *)
Lemma create_audio_with_gaps_cons (total_duration : Q)
    (audio_clips : list TimedAudio) :
  audio_clips <> [] ->
  let placed := schedule (sorted fst audio_clips) in
  let natural_end := composite_duration placed in
  let padded :=
    CompositeAudioClip
      (placed ++ [with_start (ArrayAudio (zeros (total_duration - natural_end)))
                             natural_end]) in
  (tolerance < total_duration - natural_end
   /\ create_audio_with_gaps total_duration audio_clips =
      ([Log INFO (TotalAudioDuration (audio_duration padded))], Ok padded))
  \/ (total_duration - natural_end <= tolerance
      /\ create_audio_with_gaps total_duration audio_clips =
         ([Log INFO (TotalAudioDuration natural_end)],
          Ok (CompositeAudioClip placed))).
Proof.
  intros Hne placed natural_end padded. unfold create_audio_with_gaps.
  destruct audio_clips as [|c cs]; [congruence|].
  fold placed. change (audio_duration (CompositeAudioClip placed)) with natural_end.
  destruct (Py.lt natural_end total_duration) eqn:E1.
  - destruct (Py.gt (total_duration - natural_end) tolerance) eqn:E2.
    + left. apply gt_true_iff in E2. split; [exact E2|].
      rewrite silence_of_ok by (unfold tolerance in E2; lra).
      reflexivity.
    + right. apply gt_false_iff in E2. split; [exact E2|reflexivity].
  - right. apply lt_false_iff in E1. split; [unfold tolerance; lra|reflexivity].
Qed.






(** ** Loading the fragments *)

(** [float] raises nothing but its own three errors. *)
Lemma float_raises (parse : string -> option Q) (v : pyval) (e : exn) :
  float parse v = Raise e ->
  (exists s, e = ValueError ("could not convert string to float: " ++ repr s)%string)
  \/ (exists msg, e = TypeError msg)
  \/ e = OverflowError "int too large to convert to float".
Proof.
  destruct v; simpl; try discriminate;
    try (intros [= <-]; right; left; eexists; reflexivity).
  - destruct (float_overflow <=? Z.abs n)%Z; [|discriminate].
    intros [= <-]. now right; right.
  - destruct (parse s); [discriminate|]. intros [= <-]. left. now exists s.
Qed.

Lemma float_never_duration_not_found (parse : string -> option Q) (v : pyval) :
  float parse v <> Raise duration_not_found.
Proof.
  intro H. apply float_raises in H.
  destruct H as [[s H]|[[msg H]|H]]; discriminate.
Qed.

Lemma iter_never_duration_not_found (v : pyval) :
  iter v <> Raise duration_not_found.
Proof.
  destruct v; discriminate.
Qed.

(** One turn of the loop does to the two lists what the event's fate says. *)
Lemma process_event_fate (env : Env) (directory : string) (event : pyval)
    (video_clips : list TimedVideo) (audio_clips : list TimedAudio) :
  process_event env directory event (video_clips, audio_clips) =
  match fate env directory event with
  | Malformed e => ([], Raise e)
  | f => (fate_log f,
          Ok (video_clips ++ fate_videos f, audio_clips ++ fate_audios f))
  end.
Proof.
  unfold process_event, fate, event_url, event_time, fetch, load_clip.
  destruct event as [| | | | | |event];
    try (simpl; now rewrite !app_nil_r).
  destruct (get event "data" (PyDict [])) as [| | | | | |data];
    try (simpl; now rewrite !app_nil_r).
  destruct (lookup "url" data) as [url|];
    [|simpl; now rewrite !app_nil_r].
  destruct (float (str_to_float env) (get event "relativeTime" (PyInt 0)))
    as [start_time|e]; [|reflexivity].
  destruct (download_video_chunk env url directory) as [path|];
    [|simpl; now rewrite !app_nil_r].
  destruct (path_truthy (Some path)); [|simpl; now rewrite !app_nil_r].
  destruct (path_exists env path); [|simpl; now rewrite !app_nil_r].
  simpl.
  destruct (open_video env path) as [clip|video_error].
  - simpl. now rewrite app_nil_r.
  - simpl. destruct (open_audio env path) as [clip|audio_error]; simpl;
      now rewrite ?app_nil_r.
Qed.

(** The loop over events whose timestamps can be read. *)
Lemma for_each_fates (env : Env) (directory : string) (events : list pyval)
    (video_clips : list TimedVideo) (audio_clips : list TimedAudio) :
  Forall (fun event => readable (fate env directory event)) events ->
  let fates := map (fate env directory) events in
  for_each events (process_event env directory) (video_clips, audio_clips) =
  (flat_map fate_log fates,
   Ok (video_clips ++ flat_map fate_videos fates,
       audio_clips ++ flat_map fate_audios fates)).
Proof.
  intro H. revert video_clips audio_clips.
  induction H as [|event events Hev _ IH]; intros video_clips audio_clips.
  - simpl. now rewrite !app_nil_r.
  - cbv zeta in *. simpl for_each. rewrite process_event_fate.
    simpl map. simpl flat_map. rewrite !app_assoc.
    destruct (fate env directory event); simpl in Hev; try contradiction;
      rewrite bind_ok, IH; reflexivity.
Qed.

(** The loop aborts only on a timestamp that [float] refuses. *)
Lemma for_each_raises (env : Env) (directory : string) (events : list pyval)
    (clips : list TimedVideo * list TimedAudio) (e : exn) :
  outcome (for_each events (process_event env directory) clips) = Raise e ->
  exists event, In event events /\ fate env directory event = Malformed e.
Proof.
  revert clips. induction events as [|event events IH]; intros [vs au] H.
  - discriminate.
  - simpl for_each in H. rewrite process_event_fate in H.
    destruct (fate env directory event) eqn:Hf;
      try (rewrite bind_ok in H; simpl in H; apply IH in H;
           destruct H as (ev & Hin & Hev); exists ev; split;
           [now right|exact Hev]).
    simpl in H. injection H as <-. exists event. split; [now left|exact Hf].
Qed.

Lemma malformed_float (env : Env) (directory : string) (event : pyval) (e : exn) :
  fate env directory event = Malformed e ->
  event_url event <> None /\ event_time env event = Raise e.
Proof.
  unfold fate. destruct (event_url event) as [url|]; [|discriminate].
  destruct (event_time env event) as [start_time|e'].
  - destruct (fetch env url directory); [|discriminate].
    destruct (open_video env s); [discriminate|].
    destruct (open_audio env s); discriminate.
  - intros [= <-]. split; [discriminate|reflexivity].
Qed.

Lemma readable_fate (env : Env) (directory : string) (event : pyval) :
  (event_url event <> None -> exists t, event_time env event = Ok t) ->
  readable (fate env directory event).
Proof.
  intro H. destruct (fate env directory event) eqn:Hf; simpl; auto.
  apply malformed_float in Hf. destruct Hf as [Hurl Htime].
  destruct (H Hurl) as [t Ht]. congruence.
Qed.

(** Every way [process_video_clips] can raise. *)
Lemma process_video_clips_raises (env : Env) (directory : string)
    (json_data : dict) (e : exn) :
  outcome (process_video_clips env directory json_data) = Raise e ->
  float (str_to_float env) (get json_data "duration" (PyInt 0)) = Raise e
  \/ (e = duration_not_found
      /\ exists x, float (str_to_float env) (get json_data "duration" (PyInt 0)) = Ok x
                   /\ x == 0)
  \/ iter (get json_data "eventLogs" (PyList [])) = Raise e
  \/ (exists event, fate env directory event = Malformed e).
Proof.
  unfold process_video_clips.
  destruct (float (str_to_float env) (get json_data "duration" (PyInt 0)))
    as [x|e0]; [|simpl; intros [= <-]; now left].
  unfold lift at 1. rewrite bind_ok.
  destruct (truthy x) eqn:Ht; simpl negb; cbv iota.
  - destruct (iter (get json_data "eventLogs" (PyList []))) as [events|e0];
      [|simpl; intros [= <-]; right; right; now left].
    unfold lift. rewrite bind_ok.
    destruct (for_each events (process_event env directory) ([], []))
      as [t [[vs au]|e0]] eqn:Hloop.
    + simpl. discriminate.
    + simpl. intros [= <-]. right; right; right.
      assert (H : outcome (for_each events (process_event env directory) ([], []))
                  = Raise e0) by now rewrite Hloop.
      apply for_each_raises in H. destruct H as (event & _ & Hev). eauto.
  - simpl. intros [= <-]. right; left. split; [reflexivity|].
    exists x. split; [reflexivity|]. now apply truthy_false_iff.
Qed.

Lemma process_video_clips_zero (env : Env) (directory : string)
    (json_data : dict) (x : Q) :
  float (str_to_float env) (get json_data "duration" (PyInt 0)) = Ok x ->
  x == 0 ->
  process_video_clips env directory json_data = ([], Raise duration_not_found).
Proof.
  intros Hf Hx. unfold process_video_clips. rewrite Hf.
  apply truthy_false_iff in Hx. unfold lift. rewrite bind_ok, Hx. reflexivity.
Qed.

Lemma process_video_clips_returns (env : Env) (directory : string)
    (json_data : dict) (total_duration : Q) video_clips audio_clips :
  outcome (process_video_clips env directory json_data)
  = Ok (total_duration, video_clips, audio_clips) ->
  float (str_to_float env) (get json_data "duration" (PyInt 0)) = Ok total_duration
  /\ ~ total_duration == 0.
Proof.
  unfold process_video_clips.
  destruct (float (str_to_float env) (get json_data "duration" (PyInt 0)))
    as [x|e0]; [|discriminate].
  unfold lift at 1. rewrite bind_ok.
  destruct (truthy x) eqn:Ht; simpl negb; cbv iota; [|discriminate].
  destruct (iter (get json_data "eventLogs" (PyList []))) as [events|e0];
    [|discriminate].
  unfold lift. rewrite bind_ok.
  destruct (for_each events (process_event env directory) ([], []))
    as [t [[vs au]|e0]]; [|discriminate].
  simpl. intros [= <- _ _]. split; [reflexivity|].
  intro Hx. apply truthy_false_iff in Hx. congruence.
Qed.

(** C2 (amended): [process_video_clips] raises the missing-duration error
    exactly when the input has no [duration] field or has one whose float
    value is zero; when it returns, the duration it returns is the float value
    of the field that is present, never a default. *)
Theorem process_video_clips_duration_not_found (env : Env) (directory : string)
    (json_data : dict) :
  (outcome (process_video_clips env directory json_data) = Raise duration_not_found
   <-> lookup "duration" json_data = None
       \/ exists v x, lookup "duration" json_data = Some v
                      /\ float (str_to_float env) v = Ok x /\ x == 0)
  /\ (forall total_duration video_clips audio_clips,
        outcome (process_video_clips env directory json_data)
        = Ok (total_duration, video_clips, audio_clips) ->
        exists v, lookup "duration" json_data = Some v
                  /\ float (str_to_float env) v = Ok total_duration
                  /\ ~ total_duration == 0).
Proof.
  split; [split|].
  - intro H. apply process_video_clips_raises in H.
    destruct H as [H|[[_ (x & Hf & Hx)]|[H|[event H]]]].
    + now apply float_never_duration_not_found in H.
    + unfold get in Hf. destruct (lookup "duration" json_data) as [v|].
      * right. exists v, x. auto.
      * now left.
    + now apply iter_never_duration_not_found in H.
    + apply malformed_float in H. destruct H as [_ H].
      unfold event_time in H. destruct event; try discriminate.
      now apply float_never_duration_not_found in H.
  - intros [Hnone|(v & x & Hv & Hf & Hx)].
    + rewrite (process_video_clips_zero env directory json_data 0);
        [reflexivity| |reflexivity].
      unfold get. now rewrite Hnone.
    + rewrite (process_video_clips_zero env directory json_data x);
        [reflexivity| |exact Hx].
      unfold get. now rewrite Hv.
  - intros total_duration video_clips audio_clips H.
    apply process_video_clips_returns in H. destruct H as [Hf Hnz].
    unfold get in Hf. destruct (lookup "duration" json_data) as [v|].
    + eauto.
    + simpl in Hf. injection Hf as <-. exfalso. apply Hnz. reflexivity.
Qed.

Lemma process_video_clips_duration_not_found_witness :
  outcome (process_video_clips Sample.offline "tmp" [("eventLogs", PyList [])])
  = Raise duration_not_found.
Proof.
  apply (process_video_clips_duration_not_found Sample.offline "tmp"
           [("eventLogs", PyList [])]).
  left. reflexivity.
Defined.

(** C2 as stated fails: a [duration] of 0 is present and the error is raised. *)
Lemma process_video_clips_zero_duration_present :
  ~ (forall (env : Env) (directory : string) (json_data : dict),
       outcome (process_video_clips env directory json_data) = Raise duration_not_found
       <-> lookup "duration" json_data = None).
Proof.
  intro H.
  destruct (H Sample.offline "tmp" [("duration", PyInt 0)]) as [Hraise _].
  specialize (Hraise eq_refl). discriminate.
Qed.

(** C9 (amended): when [duration] is a non-zero number, [eventLogs] can be
    iterated and every event that carries a URL has a [relativeTime] that
    [float] accepts, [process_video_clips] returns, whatever the downloader
    and the decoders do.  Each event meets its fate in turn: a file that
    opens as video joins the video list, one that only opens as audio joins
    the audio list after a warning, one that opens as neither is dropped with
    a warning and an error logged, a failed download is dropped with a
    warning, and the events after it are processed all the same. *)
Theorem process_video_clips_isolates_failures (env : Env) (directory : string)
    (json_data : dict) (total_duration : Q) (events : list pyval) :
  float (str_to_float env) (get json_data "duration" (PyInt 0)) = Ok total_duration ->
  ~ total_duration == 0 ->
  iter (get json_data "eventLogs" (PyList [])) = Ok events ->
  Forall (fun event =>
            event_url event <> None -> exists t, event_time env event = Ok t)
         events ->
  let fates := map (fate env directory) events in
  let video_clips := flat_map fate_videos fates in
  let audio_clips := flat_map fate_audios fates in
  process_video_clips env directory json_data =
  (flat_map fate_log fates
   ++ [Log INFO (TotalDurationOfClips total_duration);
       Log INFO (LoadedClips (List.length video_clips) (List.length audio_clips))],
   Ok (total_duration, video_clips, audio_clips)).
Proof.
  intros Hf Hnz Hiter Htimes fates video_clips audio_clips.
  unfold process_video_clips. rewrite Hf. unfold lift at 1. rewrite bind_ok.
  destruct (truthy total_duration) eqn:Ht;
    [|apply truthy_false_iff in Ht; contradiction].
  simpl negb. cbv iota. rewrite Hiter. unfold lift. rewrite bind_ok.
  rewrite for_each_fates.
  - reflexivity.
  - eapply Forall_impl; [|exact Htimes]. intros event H.
    now apply readable_fate.
Qed.

Lemma process_video_clips_isolates_failures_witness :
  process_video_clips Sample.online "tmp" Sample.recording =
  ([Log WARNING (FailedToLoadVideo "tmp/a.mp3" (OSError "not a video"));
    Log WARNING (FailedToLoadVideo "tmp/junk.bin" (OSError "not a video"));
    Log ERROR (FailedToLoadAudio "tmp/junk.bin" (OSError "not an audio file"));
    Log WARNING (FailedToDownload (PyStr "lost.mp4"));
    Log INFO (TotalDurationOfClips 10);
    Log INFO (LoadedClips 1 1)],
   Ok (10, [(inject_Z 3, Sample.clip_a)], [(0.5, Sample.sound_a)])).
Proof.
  rewrite (process_video_clips_isolates_failures Sample.online "tmp"
             Sample.recording 10
             [Sample.event (PyInt 3) "a.mp4"; Sample.event (PyFloat 0.5) "a.mp3";
              Sample.event (PyInt 1) "junk.bin"; Sample.event (PyInt 2) "lost.mp4";
              PyDict [("data", PyDict [])]; PyInt 7]).
  - reflexivity.
  - reflexivity.
  - intro H. vm_compute in H. discriminate.
  - reflexivity.
  - repeat constructor; intros _; eexists; reflexivity.
Defined.

(** C9 as stated fails: an event whose [relativeTime] is [null] aborts the
    run with a [TypeError]. *)
Lemma process_video_clips_aborts_on_null_time :
  ~ (forall (env : Env) (directory : string) (total_duration : Q)
            (events : list pyval),
       ~ total_duration == 0 ->
       exists clips,
         outcome (process_video_clips env directory
                    [("duration", PyFloat total_duration);
                     ("eventLogs", PyList events)])
         = Ok clips).
Proof.
  intro H.
  destruct (H Sample.offline "tmp" 10 [Sample.event PyNone "a.mp4"])
    as [clips Hrun].
  - intro H0. vm_compute in H0. discriminate.
  - vm_compute in Hrun. discriminate.
Qed.

(** ** The compiler *)

Lemma written_app (t t' : list Event) : written (t ++ t') = written t ++ written t'.
Proof.
  induction t as [|[l m|c|v o p] t IH]; simpl; congruence.
Qed.

Lemma closed_app (t t' : list Event) : closed (t ++ t') = closed t ++ closed t'.
Proof.
  induction t as [|[l m|c|v o p] t IH]; simpl; congruence.
Qed.

(** Timeline assembly only logs, and always returns. *)
Lemma create_video_with_gaps_returns (total_duration : Q)
    (video_clips : list TimedVideo) :
  exists t final_video,
    create_video_with_gaps total_duration video_clips = (t, Ok final_video)
    /\ written t = [] /\ closed t = []
    /\ attached_audio final_video = None.
Proof.
  destruct video_clips as [|c cs].
  - do 2 eexists. split; [reflexivity|]. repeat split.
  - destruct (create_video_with_gaps_cons total_duration (c :: cs))
      as (start_time & first & rest & segs & t & _ & _ & Hrun); [discriminate|].
    do 2 eexists. split; [exact Hrun|]. repeat split.
Qed.

Lemma create_audio_with_gaps_returns (total_duration : Q)
    (audio_clips : list TimedAudio) :
  audio_clips <> [] ->
  exists t final_audio,
    create_audio_with_gaps total_duration audio_clips = (t, Ok final_audio)
    /\ written t = [] /\ closed t = [].
Proof.
  intro Hne.
  destruct (create_audio_with_gaps_cons total_duration audio_clips Hne)
    as [[_ Hrun]|[_ Hrun]]; do 2 eexists; (split; [exact Hrun|]); split;
    reflexivity.
Qed.

(** Lines 117-121 never raise; the composed clip is the timeline, with the
    audio track attached exactly when there are audio fragments. *)
Lemma compose_returns (total_duration : Q) (video_clips : list TimedVideo)
    (audio_clips : list TimedAudio) :
  exists t timeline composed,
    compose total_duration video_clips audio_clips = (t, Ok composed)
    /\ written t = [] /\ closed t = []
    /\ outcome (create_video_with_gaps total_duration video_clips) = Ok timeline
    /\ attached_audio timeline = None
    /\ (audio_clips = [] -> composed = timeline)
    /\ (audio_clips <> [] ->
        exists combined_audio,
          outcome (create_audio_with_gaps total_duration audio_clips)
          = Ok combined_audio
          /\ composed = with_audio timeline combined_audio).
Proof.
  destruct (create_video_with_gaps_returns total_duration video_clips)
    as (t & timeline & Hv & Hw & Hc & Hna).
  unfold compose. rewrite Hv, bind_ok.
  destruct audio_clips as [|a au].
  - exists (t ++ []), timeline, timeline. simpl.
    rewrite written_app, closed_app, Hw, Hc.
    repeat split; congruence.
  - destruct (create_audio_with_gaps_returns total_duration (a :: au))
      as (t' & combined & Ha & Hw' & Hc'); [discriminate|].
    rewrite Ha, bind_ok. simpl.
    exists (t ++ t' ++ []), timeline, (with_audio timeline combined).
    rewrite !written_app, !closed_app, Hw, Hc, Hw', Hc'.
    repeat split; try congruence.
    intros _. exists combined. split; reflexivity.
Qed.


Lemma apply_limit_unset (v : VideoClip) (max_duration : option Z) :
  max_duration = None \/ max_duration = Some 0%Z ->
  apply_limit v max_duration = ([], Ok v).
Proof.
  intros [->| ->]; reflexivity.
Qed.



(** The limit step only logs. *)
Lemma apply_limit_quiet (v : VideoClip) (max_duration : option Z) :
  written (trace (apply_limit v max_duration)) = []
  /\ closed (trace (apply_limit v max_duration)) = [].
Proof.
  unfold apply_limit. destruct (limit_set max_duration) as [m|]; [|now split].
  destruct (Py.gt (duration v) (inject_Z m)); now split.
Qed.

Lemma for_each_close_videos (video_clips : list TimedVideo) :
  for_each video_clips (fun '(_, clip) _ => close (VideoFragment clip)) tt =
  (map (fun c => Close (VideoFragment (snd c))) video_clips, Ok tt).
Proof.
  induction video_clips as [|[start_time clip] l IH]; [reflexivity|].
  simpl. rewrite IH. reflexivity.
Qed.

Lemma for_each_close_audios (audio_clips : list TimedAudio) :
  for_each audio_clips (fun '(_, clip) _ => close (AudioFragment clip)) tt =
  (map (fun c => Close (AudioFragment (snd c))) audio_clips, Ok tt).
Proof.
  induction audio_clips as [|[start_time clip] l IH]; [reflexivity|].
  simpl. rewrite IH. reflexivity.
Qed.

Lemma release_trace (v : VideoClip) (video_clips : list TimedVideo)
    (audio_clips : list TimedAudio) :
  release v video_clips audio_clips =
  (Close (Composed v) :: map Close (handles video_clips audio_clips), Ok tt).
Proof.
  unfold release, close, emit, handles.
  rewrite bind_ok, for_each_close_videos, bind_ok, for_each_close_audios.
  simpl. rewrite map_app, !map_map. reflexivity.
Qed.

Lemma closed_map_Close (l : list Closable) : closed (map Close l) = l.
Proof.
  induction l; simpl; congruence.
Qed.

Lemma written_map_Close (l : list Closable) : written (map Close l) = [].
Proof.
  induction l; simpl; congruence.
Qed.

(** What a call of [compile_final_video] does, given the clip that reaches
    the encoder. *)
Lemma compile_final_video_run (env : Env) (total_duration : Q)
    (video_clips : list TimedVideo) (audio_clips : list TimedAudio)
    (output_path : string) (max_duration : option Z)
    (t1 t2 : list Event) (composed v : VideoClip) :
  compose total_duration video_clips audio_clips = (t1, Ok composed) ->
  apply_limit composed max_duration = (t2, Ok v) ->
  compile_final_video env total_duration video_clips audio_clips output_path
    max_duration =
  match encoder env v output_path (profile env) with
  | None =>
      (t1 ++ t2
       ++ [Log INFO (WritingFinalVideo output_path);
           WriteVideofile v output_path (profile env); Close (Composed v)]
       ++ map Close (handles video_clips audio_clips),
       Ok tt)
  | Some e =>
      (t1 ++ t2
       ++ [Log INFO (WritingFinalVideo output_path); Log ERROR (FailedToCompile e)],
       Raise e)
  end.
Proof.
  intros Hc Hl. unfold compile_final_video, compile_body.
  rewrite Hc, bind_ok, Hl, bind_ok. unfold logging, emit. rewrite bind_ok.
  unfold write_videofile.
  destruct (encoder env v output_path (profile env)) as [e|].
  - simpl. rewrite <- ?app_assoc. reflexivity.
  - unfold emit. rewrite bind_ok, release_trace. simpl.
    rewrite <- ?app_assoc. reflexivity.
Qed.

(** When the limit step itself raises, nothing is written or closed. *)
Lemma compile_final_video_limit_raises (env : Env) (total_duration : Q)
    (video_clips : list TimedVideo) (audio_clips : list TimedAudio)
    (output_path : string) (max_duration : option Z)
    (t1 t2 : list Event) (composed : VideoClip) (e : exn) :
  compose total_duration video_clips audio_clips = (t1, Ok composed) ->
  apply_limit composed max_duration = (t2, Raise e) ->
  compile_final_video env total_duration video_clips audio_clips output_path
    max_duration =
  (t1 ++ t2 ++ [Log ERROR (FailedToCompile e)], Raise e).
Proof.
  intros Hc Hl. unfold compile_final_video, compile_body.
  rewrite Hc, bind_ok, Hl. simpl. rewrite <- ?app_assoc. reflexivity.
Qed.

(** On success every fragment handle passed in is closed, after the write. *)
Lemma compile_final_video_releases_on_success (env : Env) (total_duration : Q)
    (video_clips : list TimedVideo) (audio_clips : list TimedAudio)
    (output_path : string) (max_duration : option Z) :
  outcome (compile_final_video env total_duration video_clips audio_clips
             output_path max_duration) = Ok tt ->
  exists v,
    written (trace (compile_final_video env total_duration video_clips
                      audio_clips output_path max_duration)) = [v]
    /\ closed (trace (compile_final_video env total_duration video_clips
                        audio_clips output_path max_duration))
       = Composed v :: handles video_clips audio_clips.
Proof.
  destruct (compose_returns total_duration video_clips audio_clips)
    as (t1 & timeline & composed & Hc & Hw1 & Hc1 & _).
  destruct (apply_limit_quiet composed max_duration) as [Hw2 Hc2].
  destruct (apply_limit composed max_duration) as [t2 [v|e]] eqn:Hl.
  - rewrite (compile_final_video_run _ _ _ _ _ _ _ _ _ _ Hc Hl).
    destruct (encoder env v output_path (profile env)); [discriminate|].
    intros _. exists v. simpl trace in *.
    rewrite !written_app, !closed_app, Hw1, Hc1, Hw2, Hc2. simpl.
    now rewrite written_map_Close, closed_map_Close.
  - rewrite (compile_final_video_limit_raises _ _ _ _ _ _ _ _ _ _ Hc Hl).
    discriminate.
Qed.

(** On failure nothing is closed: the handles outlive the call. *)
Lemma compile_final_video_releases_nothing_on_failure (env : Env)
    (total_duration : Q) (video_clips : list TimedVideo)
    (audio_clips : list TimedAudio) (output_path : string)
    (max_duration : option Z) (e : exn) :
  outcome (compile_final_video env total_duration video_clips audio_clips
             output_path max_duration) = Raise e ->
  closed (trace (compile_final_video env total_duration video_clips
                   audio_clips output_path max_duration)) = [].
Proof.
  destruct (compose_returns total_duration video_clips audio_clips)
    as (t1 & timeline & composed & Hc & Hw1 & Hc1 & _).
  destruct (apply_limit_quiet composed max_duration) as [Hw2 Hc2].
  destruct (apply_limit composed max_duration) as [t2 [v|e']] eqn:Hl.
  - rewrite (compile_final_video_run _ _ _ _ _ _ _ _ _ _ Hc Hl).
    destruct (encoder env v output_path (profile env)); [|discriminate].
    intros _. simpl trace in *.
    rewrite !closed_app, Hc1, Hc2. reflexivity.
  - rewrite (compile_final_video_limit_raises _ _ _ _ _ _ _ _ _ _ Hc Hl).
    intros _. simpl trace in *.
    rewrite !closed_app, Hc1, Hc2. reflexivity.
Qed.

Lemma apply_limit_shape (composed v : VideoClip) (max_duration : option Z)
    (t : list Event) :
  apply_limit composed max_duration = (t, Ok v) ->
  v = composed
  \/ exists m, max_duration = Some m /\ v = Subclip composed 0 (inject_Z m).
Proof.
  unfold apply_limit. destruct max_duration as [m|]; simpl limit_set.
  - destruct m as [|m|m]; simpl.
    + intros [= _ <-]. now left.
    + destruct (Py.gt (duration composed) (inject_Z (Z.pos m)));
        [discriminate|]. intros [= _ <-]. now left.
    + destruct (Py.gt (duration composed) (inject_Z (Z.neg m)));
        [discriminate|]. intros [= _ <-]. now left.
  - intros [= _ <-]. now left.
Qed.

(** What reaches the encoder is written at most once, and is the composed
    clip or its cut. *)
Lemma compile_final_video_written (env : Env) (total_duration : Q)
    (video_clips : list TimedVideo) (audio_clips : list TimedAudio)
    (output_path : string) (max_duration : option Z) (composed v : VideoClip) :
  outcome (compose total_duration video_clips audio_clips) = Ok composed ->
  In v (written (trace (compile_final_video env total_duration video_clips
                          audio_clips output_path max_duration))) ->
  v = composed
  \/ exists m, max_duration = Some m /\ v = Subclip composed 0 (inject_Z m).
Proof.
  destruct (compose_returns total_duration video_clips audio_clips)
    as (t1 & timeline & composed' & Hc & Hw1 & Hc1 & _).
  rewrite Hc. simpl. intros [= <-].
  destruct (apply_limit_quiet composed' max_duration) as [Hw2 Hc2].
  destruct (apply_limit composed' max_duration) as [t2 [v'|e]] eqn:Hl.
  - rewrite (compile_final_video_run _ _ _ _ _ _ _ _ _ _ Hc Hl).
    simpl trace in *.
    destruct (encoder env v' output_path (profile env)); simpl;
      rewrite !written_app, Hw1, Hw2; simpl.
    + contradiction.
    + rewrite written_map_Close. intros [<-|[]].
      eapply apply_limit_shape. exact Hl.
  - rewrite (compile_final_video_limit_raises _ _ _ _ _ _ _ _ _ _ Hc Hl).
    simpl trace in *. rewrite !written_app, Hw1, Hw2. simpl. contradiction.
Qed.

(** C1 (the code departs from the claim): when the encoder fails,
    [compile_final_video] raises without closing any fragment handle, while
    the same call with a working encoder closes them all. *)
Theorem compile_final_video_leaks_when_encoder_fails :
  let video_clips := [(0, Sample.clip_a)] in
  let audio_clips := [(0, Sample.sound_a); (1, Sample.sound_a)] in
  let failed :=
    compile_final_video Sample.broken_encoder 4 video_clips audio_clips
      "out.mp4" None in
  let succeeded :=
    compile_final_video Sample.offline 4 video_clips audio_clips
      "out.mp4" None in
  outcome failed = Raise (OSError "ffmpeg exited")
  /\ closed (trace failed) = []
  /\ outcome succeeded = Ok tt
  /\ tl (closed (trace succeeded)) = handles video_clips audio_clips.
Proof.
  vm_compute. repeat split.
Qed.

(** C5 (the code departs from the claim): with a [max_duration] of 8 and a
    composed clip of 10 s, [compile_final_video] logs the crop and then fails
    on [video_result.subclip], which moviepy 2 clips do not have: it raises
    [AttributeError] and writes nothing, where the claim has it write a clip
    of exactly 8 s.  With a limit that is not exceeded the clip is written. *)
Theorem compile_final_video_crop_fails :
  let run :=
    compile_final_video Sample.offline 10 [(3, Sample.clip_a)] [] "out.mp4"
      (Some 8%Z) in
  let uncut :=
    compile_final_video Sample.offline 10 [(3, Sample.clip_a)] [] "out.mp4"
      (Some 12%Z) in
  outcome run
  = Raise (AttributeError "'VideoClip' object has no attribute 'subclip'")
  /\ written (trace run) = []
  /\ In (Log INFO (DurationLimit 8)) (trace run)
  /\ outcome uncut = Ok tt
  /\ List.length (written (trace uncut)) = 1%nat.
Proof.
  vm_compute. repeat split. right. now left.
Qed.

(** C10: with no audio fragments, what [compile_final_video] composes is the
    video timeline itself: no audio track is attached to it, silent or
    otherwise, so its audio is what the fragments carry.  A track is attached
    exactly when there are audio fragments, and then it is the one
    [create_audio_with_gaps] built.  What is written is the composed clip or
    its cut, with the same attachment. *)
Theorem compile_final_video_attaches_audio (env : Env) (total_duration : Q)
    (video_clips : list TimedVideo) (audio_clips : list TimedAudio)
    (output_path : string) (max_duration : option Z) :
  exists timeline composed,
    outcome (create_video_with_gaps total_duration video_clips) = Ok timeline
    /\ outcome (compose total_duration video_clips audio_clips) = Ok composed
    /\ attached_audio timeline = None
    /\ (audio_clips = [] ->
        composed = timeline /\ audio composed = audio timeline)
    /\ (audio_clips <> [] ->
        exists combined_audio,
          outcome (create_audio_with_gaps total_duration audio_clips)
          = Ok combined_audio
          /\ composed = with_audio timeline combined_audio
          /\ audio composed = AttachedAudio combined_audio)
    /\ (attached_audio composed <> None <-> audio_clips <> [])
    /\ (forall v,
          In v (written (trace (compile_final_video env total_duration
                                  video_clips audio_clips output_path
                                  max_duration))) ->
          attached_audio v = attached_audio composed
          /\ (v = composed
              \/ exists m, max_duration = Some m
                           /\ v = Subclip composed 0 (inject_Z m))).
Proof.
  destruct (compose_returns total_duration video_clips audio_clips)
    as (t1 & timeline & composed & Hc & _ & _ & Ht & Hna & Hnil & Hcons).
  exists timeline, composed.
  split; [exact Ht|]. split; [now rewrite Hc|]. split; [exact Hna|].
  split; [|split; [|split]].
  - intro Hempty. specialize (Hnil Hempty). now subst composed.
  - intro Hne. destruct (Hcons Hne) as (combined & Hrun & ->).
    exists combined. repeat split. exact Hrun.
  - split.
    + intros Hsome Hempty. specialize (Hnil Hempty). subst composed. congruence.
    + intro Hne. destruct (Hcons Hne) as (combined & _ & ->). discriminate.
  - intros v Hin.
    assert (Hv : v = composed
                 \/ exists m, max_duration = Some m
                              /\ v = Subclip composed 0 (inject_Z m)).
    { eapply compile_final_video_written; [|exact Hin]. now rewrite Hc. }
    split; [|exact Hv].
    destruct Hv as [->|(m & _ & ->)]; reflexivity.
Qed.

(** With no audio fragments the timeline is written as it is, fragment audio
    included. *)
Example compile_final_video_keeps_native_audio :
  let run :=
    compile_final_video Sample.offline 10 [(3, Sample.clip_a)] [] "out.mp4" None in
  exists timeline,
    outcome (create_video_with_gaps 10 [(3, Sample.clip_a)]) = Ok timeline
    /\ written (trace run) = [timeline]
    /\ audio timeline = NativeAudio (segments timeline).
Proof.
  eexists. repeat split.
Qed.

(** * Further properties *)

(** ** The video timeline, continued *)

(** The result on a non-empty list: the walk over the sorted fragments and
    the trailing filler, if any. *)
Lemma create_video_with_gaps_segments (total_duration : Q)
    (video_clips : list TimedVideo) :
  video_clips <> [] ->
  exists first segs t tail,
    hd_error (sorted fst video_clips) = Some first
    /\ timeline (vf_w (snd first)) (vf_h (snd first)) 0
         (sorted fst video_clips) segs t
    /\ outcome (create_video_with_gaps total_duration video_clips)
       = Ok (concatenate_videoclips (segs ++ tail))
    /\ ((total_duration - t <= tolerance /\ tail = [])
        \/ (tolerance < total_duration - t
            /\ tail = [Filler {| cc_size := (vf_w (snd first), vf_h (snd first));
                                 cc_color := black;
                                 cc_duration := total_duration - t |}])).
Proof.
  intro Hne.
  destruct (create_video_with_gaps_cons total_duration video_clips Hne)
    as (start_time & first & rest & segs & t & Hs & Ht & Hrun).
  destruct (pad_tail_cases (vf_w first) (vf_h first) total_duration segs t)
    as [[Hgap Hpad]|[Hgap Hpad]].
  - exists (start_time, first), segs, t. eexists.
    split; [now rewrite Hs|]. split; [exact Ht|].
    split; [rewrite Hrun, Hpad; reflexivity|]. right. split; [exact Hgap|reflexivity].
  - exists (start_time, first), segs, t, [].
    split; [now rewrite Hs|]. split; [exact Ht|].
    split; [rewrite Hrun, Hpad, app_nil_r; reflexivity|]. left. now split.
Qed.

Section SortedMore.
Context {A : Type} (key : A -> Q).

Lemma insert_head (x : A) (l : list A) :
  Forall (fun y => key x <= key y) l -> insert key x l = x :: l.
Proof.
  destruct 1 as [|y l Hy Hl]; simpl; [reflexivity|].
  apply lt_false_iff in Hy. now rewrite Hy.
Qed.

(** [sorted] leaves a list in non-decreasing key order as it is. *)
Lemma sorted_of_ascending (l : list A) :
  StronglySorted (fun a b => key a <= key b) l -> sorted key l = l.
Proof.
  induction 1 as [|x l Hl IH Hx]; simpl; [reflexivity|].
  rewrite IH. now apply insert_head.
Qed.

(** Two lists in key order with the same items, where equal keys mean equal
    items, are the same list. *)
Lemma ascending_unique (l l' : list A) :
  (forall a b, In a l -> In b l -> key a == key b -> a = b) ->
  StronglySorted (fun a b => key a <= key b) l ->
  StronglySorted (fun a b => key a <= key b) l' ->
  Permutation l l' ->
  l = l'.
Proof.
  intros Hkey Hl. revert l' Hkey.
  induction Hl as [|x l Hl IH Hx]; intros l' Hkey Hl' Hperm.
  - symmetry. now apply Permutation_nil.
  - destruct Hl' as [|y l' Hl' Hy].
    + apply Permutation_sym, Permutation_nil in Hperm. discriminate.
    + assert (Hxy : x = y).
      { assert (Hin : In x (y :: l'))
          by (apply (Permutation_in _ Hperm); now left).
        assert (Hin' : In y (x :: l))
          by (apply (Permutation_in _ (Permutation_sym Hperm)); now left).
        destruct Hin as [->|Hin]; [reflexivity|].
        destruct Hin' as [->|Hin']; [reflexivity|].
        rewrite Forall_forall in Hx, Hy.
        specialize (Hx y Hin'). specialize (Hy x Hin).
        apply Hkey; [now left|now right|lra]. }
      subst y. f_equal. apply IH.
      * intros a b Ha Hb. apply Hkey; now right.
      * exact Hl'.
      * now apply Permutation_cons_inv in Hperm.
Qed.

(** Under the same condition [sorted] forgets the order of its input. *)
Lemma sorted_permutation (l l' : list A) :
  (forall a b, In a l -> In b l -> key a == key b -> a = b) ->
  Permutation l l' ->
  sorted key l = sorted key l'.
Proof.
  intros Hkey Hperm. apply ascending_unique.
  - intros a b Ha Hb. apply Hkey.
    + apply (Permutation_in _ (sorted_perm key l)), Ha.
    + apply (Permutation_in _ (sorted_perm key l)), Hb.
  - apply sorted_ascending.
  - apply sorted_ascending.
  - rewrite (sorted_perm key l), (sorted_perm key l'). exact Hperm.
Qed.
End SortedMore.

Lemma fragments_filler_tail (segs tail : list Segment) :
  fragments tail = [] -> fragments (segs ++ tail) = fragments segs.
Proof.
  intro H. now rewrite fragments_app, H, app_nil_r.
Qed.

(** X1: a list already in non-decreasing start order is played in the order
    given, fragments of equal start time included. *)
Theorem create_video_with_gaps_keeps_given_order (total_duration : Q)
    (video_clips : list TimedVideo) :
  video_clips <> [] ->
  ascending video_clips ->
  exists final_video,
    outcome (create_video_with_gaps total_duration video_clips) = Ok final_video
    /\ fragments (segments final_video) = map snd video_clips.
Proof.
  intros Hne Hasc.
  destruct (create_video_with_gaps_segments total_duration video_clips Hne)
    as (first & segs & t & tail & _ & Ht & Hrun & Htail).
  rewrite (sorted_of_ascending fst video_clips Hasc) in Ht.
  eexists. split; [exact Hrun|]. simpl segments.
  rewrite fragments_filler_tail.
  - exact (timeline_fragments _ _ _ _ _ _ Ht).
  - destruct Htail as [[_ ->]|[_ ->]]; reflexivity.
Qed.

Lemma create_video_with_gaps_keeps_given_order_witness :
  exists final_video,
    outcome (create_video_with_gaps 20
               [(1, Sample.clip_a); (1, Sample.clip_b); (2, Sample.clip_a)])
    = Ok final_video
    /\ fragments (segments final_video)
       = [Sample.clip_a; Sample.clip_b; Sample.clip_a].
Proof.
  apply (create_video_with_gaps_keeps_given_order 20
           [(1, Sample.clip_a); (1, Sample.clip_b); (2, Sample.clip_a)]).
  - discriminate.
  - repeat constructor; simpl; lra.
Defined.

(** X2: the timeline does not depend on the order in which the fragments are
    listed, as long as fragments with equal start times are identical. *)
Theorem create_video_with_gaps_order_independent (total_duration : Q)
    (video_clips video_clips' : list TimedVideo) :
  keyed video_clips ->
  Permutation video_clips video_clips' ->
  create_video_with_gaps total_duration video_clips
  = create_video_with_gaps total_duration video_clips'.
Proof.
  intros Hkey Hperm. unfold create_video_with_gaps.
  rewrite (sorted_permutation fst video_clips video_clips' Hkey Hperm).
  destruct video_clips as [|c cs].
  - apply Permutation_nil in Hperm. now subst.
  - destruct video_clips' as [|c' cs']; [|reflexivity].
    apply Permutation_sym, Permutation_nil in Hperm. discriminate.
Qed.

Lemma create_video_with_gaps_order_independent_witness :
  create_video_with_gaps 20 [(1, Sample.clip_a); (7, Sample.clip_b)]
  = create_video_with_gaps 20 [(7, Sample.clip_b); (1, Sample.clip_a)].
Proof.
  apply create_video_with_gaps_order_independent.
  - intros a b [<-|[<-|[]]] [<-|[<-|[]]] H; try reflexivity;
      vm_compute in H; discriminate.
  - apply perm_swap.
Defined.

Lemma timeline_clock_bound (width height : Z) t l segs t' :
  timeline width height t l segs t' ->
  forall t0, t <= t0 -> disjoint_from t0 l -> t' <= last_end t0 l.
Proof.
  induction 1 as [t|t s v rest segs t' Hgap _ IH|t s v rest segs t' Hgap _ IH];
    intros t0 Ht0 Hd; simpl in *.
  - exact Ht0.
  - destruct Hd as [Hs Hd]. apply IH; [lra|exact Hd].
  - destruct Hd as [Hs Hd]. apply IH; [lra|exact Hd].
Qed.

(** X3: when the fragments, in start order, do not overlap and the last one
    ends by [total_duration], the timeline lasts at most [total_duration] and
    at least [total_duration - 0.01]. *)
Theorem create_video_with_gaps_fits (total_duration : Q)
    (video_clips : list TimedVideo) :
  video_clips <> [] ->
  0 <= total_duration ->
  disjoint_from 0 (sorted fst video_clips) ->
  last_end 0 (sorted fst video_clips) <= total_duration ->
  exists final_video,
    outcome (create_video_with_gaps total_duration video_clips) = Ok final_video
    /\ total_duration - tolerance <= duration final_video
    /\ duration final_video <= total_duration.
Proof.
  intros Hne Htd Hd Hlast.
  destruct (create_video_with_gaps_segments total_duration video_clips Hne)
    as (first & segs & t & tail & _ & Ht & Hrun & Htail).
  pose proof (timeline_clock _ _ _ _ _ _ Ht) as Hclock.
  pose proof (timeline_clock_bound _ _ _ _ _ _ Ht 0 (Qle_refl 0) Hd) as Hbound.
  eexists. split; [exact Hrun|].
  simpl duration. rewrite chain_duration_playing_time, playing_time_app.
  unfold tolerance in *.
  destruct Htail as [[Hgap ->]|[Hgap ->]]; simpl; qmax_cases; split; lra.
Qed.

Lemma create_video_with_gaps_fits_witness :
  exists final_video,
    outcome (create_video_with_gaps 20 [(7, Sample.clip_b); (1, Sample.clip_a)])
    = Ok final_video
    /\ 20 - tolerance <= duration final_video
    /\ duration final_video <= 20.
Proof.
  apply (create_video_with_gaps_fits 20
           [(7, Sample.clip_b); (1, Sample.clip_a)]).
  - discriminate.
  - lra.
  - simpl. repeat split; lra.
  - simpl. lra.
Defined.

Lemma timeline_abutting (width height : Z) t l segs t' :
  timeline width height t l segs t' ->
  abutting t l ->
  segs = map (fun c => Fragment (snd c)) l.
Proof.
  induction 1 as [t|t s v rest segs t' Hgap _ IH|t s v rest segs t' Hgap _ IH];
    simpl; intro Ha.
  - reflexivity.
  - destruct Ha as [Hs _]. lra.
  - destruct Ha as [_ Ha]. now rewrite (IH Ha).
Qed.

Lemma playing_time_fragments (l : list TimedVideo) :
  playing_time (map (fun c => Fragment (snd c)) l) == footage l.
Proof.
  induction l as [|[s v] l IH]; simpl; lra.
Qed.

(** X4: fragments that follow one another without a gap above the tolerance
    and fill [total_duration] to within the tolerance are concatenated as
    they are: the timeline holds no filler. *)
Theorem create_video_with_gaps_no_filler (total_duration : Q)
    (video_clips : list TimedVideo) :
  video_clips <> [] ->
  abutting 0 (sorted fst video_clips) ->
  total_duration - footage video_clips <= tolerance ->
  outcome (create_video_with_gaps total_duration video_clips)
  = Ok (concatenate_videoclips
          (map (fun c => Fragment (snd c)) (sorted fst video_clips))).
Proof.
  intros Hne Ha Hfill.
  destruct (create_video_with_gaps_segments total_duration video_clips Hne)
    as (first & segs & t & tail & _ & Ht & Hrun & Htail).
  pose proof (timeline_clock _ _ _ _ _ _ Ht) as Hclock.
  pose proof (timeline_abutting _ _ _ _ _ _ Ht Ha) as Hsegs.
  rewrite Hsegs, playing_time_fragments in Hclock.
  rewrite (footage_perm _ _ (sorted_perm fst video_clips)) in Hclock.
  destruct Htail as [[_ ->]|[Hgap _]].
  - rewrite Hrun, app_nil_r, Hsegs. reflexivity.
  - lra.
Qed.

Lemma create_video_with_gaps_no_filler_witness :
  outcome (create_video_with_gaps 16 [(4, Sample.clip_b); (0, Sample.clip_a)])
  = Ok (concatenate_videoclips [Fragment Sample.clip_a; Fragment Sample.clip_b]).
Proof.
  apply (create_video_with_gaps_no_filler 16
           [(4, Sample.clip_b); (0, Sample.clip_a)]).
  - discriminate.
  - simpl. unfold tolerance. repeat split; lra.
  - simpl. unfold tolerance. lra.
Defined.

Lemma timeline_count (width height : Z) t l segs t' :
  timeline width height t l segs t' ->
  (List.length (fillers segs) <= List.length l)%nat
  /\ List.length segs = (List.length l + List.length (fillers segs))%nat.
Proof.
  induction 1 as [t|t s v rest segs t' Hgap _ [IH1 IH2]
                 |t s v rest segs t' Hgap _ [IH1 IH2]]; simpl; lia.
Qed.

Lemma fillers_app (l l' : list Segment) :
  fillers (l ++ l') = fillers l ++ fillers l'.
Proof.
  induction l as [|[v|c] l IH]; simpl; congruence.
Qed.

Lemma timeline_fillers_apart (width height : Z) t l segs t' :
  timeline width height t l segs t' ->
  forall tail, tail = [] \/ (exists c, tail = [Filler c]) ->
               fillers_apart (segs ++ tail).
Proof.
  induction 1 as [t|t s v rest segs t' Hgap _ IH|t s v rest segs t' Hgap _ IH];
    intros tail Htail.
  - destruct Htail as [->|[c ->]]; exact I.
  - simpl. now apply IH.
  - simpl. now apply IH.
Qed.

(** X5: the timeline of [n] fragments holds every fragment exactly once, in
    sorted order, with no two fillers next to each other and at most [n + 1]
    fillers in all: at most one before each fragment and one at the end. *)
Theorem create_video_with_gaps_segment_count (total_duration : Q)
    (video_clips : list TimedVideo) :
  video_clips <> [] ->
  exists clips,
    outcome (create_video_with_gaps total_duration video_clips)
    = Ok (concatenate_videoclips clips)
    /\ fragments clips = map snd (sorted fst video_clips)
    /\ Permutation (fragments clips) (map snd video_clips)
    /\ fillers_apart clips
    /\ (List.length (fillers clips) <= List.length video_clips + 1)%nat
    /\ List.length clips
       = (List.length video_clips + List.length (fillers clips))%nat.
Proof.
  intro Hne.
  destruct (create_video_with_gaps_segments total_duration video_clips Hne)
    as (first & segs & t & tail & _ & Ht & Hrun & Htail).
  destruct (timeline_count _ _ _ _ _ _ Ht) as [Hf Hn].
  pose proof (timeline_fragments _ _ _ _ _ _ Ht) as Hfr.
  pose proof (Permutation_length (sorted_perm fst video_clips)) as Hlen.
  assert (Hfrag : fragments (segs ++ tail) = map snd (sorted fst video_clips)).
  { rewrite fragments_filler_tail; [exact Hfr|].
    destruct Htail as [[_ ->]|[_ ->]]; reflexivity. }
  exists (segs ++ tail). split; [exact Hrun|].
  split; [exact Hfrag|].
  split; [rewrite Hfrag; apply Permutation_map, sorted_perm|].
  split.
  { apply (timeline_fillers_apart _ _ _ _ _ _ Ht).
    destruct Htail as [[_ ->]|[_ ->]]; [now left|right; eauto]. }
  rewrite fillers_app, !length_app.
  unfold TimedVideo in *.
  destruct Htail as [[_ ->]|[_ ->]]; simpl; lia.
Qed.

Lemma create_video_with_gaps_segment_count_witness :
  exists clips,
    outcome (create_video_with_gaps 40 [(20, Sample.clip_b); (3, Sample.clip_a)])
    = Ok (concatenate_videoclips clips)
    /\ fragments clips = [Sample.clip_a; Sample.clip_b]
    /\ fillers_apart clips
    /\ (List.length (fillers clips) <= 3)%nat.
Proof.
  destruct (create_video_with_gaps_segment_count 40
              [(20, Sample.clip_b); (3, Sample.clip_a)])
    as (clips & Hrun & Hfr & _ & Hapart & Hf & _); [discriminate|].
  exists clips. split; [exact Hrun|]. split; [exact Hfr|].
  split; [exact Hapart|exact Hf].
Defined.

(** ** The audio track, continued *)







Lemma max_cases (a b : Q) :
  (a < b /\ Py.max a b = b) \/ (b <= a /\ Py.max a b = a).
Proof.
  unfold Py.max. py_compare; auto.
Qed.

(** Case analysis on every Python [max] in the goal. *)
Ltac pymax_cases :=
  repeat match goal with
  | |- context [Py.max ?x ?y] =>
      let H := fresh "H" in
      let H' := fresh "H" in
      destruct (max_cases x y) as [[H H']|[H H']];
      revert H H'; generalize (Py.max x y); intro
  end;
  intros; subst.

Lemma max_proper (x a a' : Q) : a == a' -> Py.max x a == Py.max x a'.
Proof.
  intro H. pymax_cases; lra.
Qed.

Lemma fold_max_proper (l : list Scheduled) (a a' : Q) :
  a == a' ->
  fold_left (fun d s => Py.max (sch_end s) d) l a
  == fold_left (fun d s => Py.max (sch_end s) d) l a'.
Proof.
  revert a a'. induction l as [|s l IH]; intros a a' H; simpl.
  - exact H.
  - apply IH, max_proper, H.
Qed.

Lemma fold_max_perm (l l' : list Scheduled) :
  Permutation l l' ->
  forall a, fold_left (fun d s => Py.max (sch_end s) d) l a
            == fold_left (fun d s => Py.max (sch_end s) d) l' a.
Proof.
  induction 1 as [|x l l' _ IH|x y l|l l' l'' _ IH _ IH']; intro a; simpl.
  - reflexivity.
  - apply IH.
  - apply fold_max_proper. pymax_cases; lra.
  - now rewrite IH.
Qed.

(** The natural end of a composite does not depend on the order of its
    clips. *)
Lemma composite_duration_perm (l l' : list Scheduled) :
  Permutation l l' -> composite_duration l == composite_duration l'.
Proof.
  intro H. apply (fold_max_perm l l' H).
Qed.

Lemma int_proper (x y : Q) : 0 <= x -> x == y -> Py.int x = Py.int y.
Proof.
  intros Hx H. rewrite !int_floor by lra. now apply Qfloor_comp.
Qed.

Lemma zeros_duration_proper (d d' : Q) :
  0 <= d -> d == d' -> array_duration (zeros d) == array_duration (zeros d').
Proof.
  intros Hd H. rewrite !zeros_duration by lra.
  rewrite (int_proper (d * 44100) (d' * 44100)) by lra. reflexivity.
Qed.

(** The duration of the result on a non-empty list, from the natural end of
    the fragments. *)
Lemma create_audio_with_gaps_duration (total_duration : Q)
    (audio_clips : list TimedAudio) :
  audio_clips <> [] ->
  let natural_end := composite_duration (schedule (sorted fst audio_clips)) in
  exists final_audio,
    outcome (create_audio_with_gaps total_duration audio_clips) = Ok final_audio
    /\ ((tolerance < total_duration - natural_end
         /\ audio_duration final_audio
            == natural_end + array_duration (zeros (total_duration - natural_end)))
        \/ (total_duration - natural_end <= tolerance
            /\ audio_duration final_audio == natural_end)).
Proof.
  intros Hne natural_end.
  destruct (create_audio_with_gaps_cons total_duration audio_clips Hne)
    as [[Hgap Hrun]|[Hgap Hrun]]; fold natural_end in Hgap, Hrun.
  - eexists. split; [rewrite Hrun; reflexivity|]. left. split; [exact Hgap|].
    assert (H0 : 0 <= total_duration - natural_end)
      by (unfold tolerance in Hgap; lra).
    destruct (zeros_duration_bounds _ H0) as [Hle Hlt].
    simpl audio_duration. rewrite composite_duration_app.
    fold natural_end. unfold sch_end. simpl.
    unfold Py.max, sample_period, tolerance in *. py_compare; lra.
  - eexists. split; [rewrite Hrun; reflexivity|]. right. split; [exact Hgap|].
    reflexivity.
Qed.

(** X7: the duration of the audio track does not depend on the order in
    which the fragments are listed. *)
Theorem create_audio_with_gaps_duration_order_independent (total_duration : Q)
    (audio_clips audio_clips' : list TimedAudio) :
  audio_clips <> [] ->
  Permutation audio_clips audio_clips' ->
  exists final_audio final_audio',
    outcome (create_audio_with_gaps total_duration audio_clips) = Ok final_audio
    /\ outcome (create_audio_with_gaps total_duration audio_clips')
       = Ok final_audio'
    /\ audio_duration final_audio == audio_duration final_audio'.
Proof.
  intros Hne Hperm.
  assert (Hne' : audio_clips' <> []).
  { intros ->. apply Permutation_sym, Permutation_nil in Hperm. contradiction. }
  assert (Hend : composite_duration (schedule (sorted fst audio_clips))
                 == composite_duration (schedule (sorted fst audio_clips'))).
  { apply composite_duration_perm. unfold schedule. apply Permutation_map.
    rewrite (sorted_perm fst audio_clips), (sorted_perm fst audio_clips').
    exact Hperm. }
  destruct (create_audio_with_gaps_duration total_duration audio_clips Hne)
    as (a & Hrun & Hd).
  destruct (create_audio_with_gaps_duration total_duration audio_clips' Hne')
    as (a' & Hrun' & Hd').
  exists a, a'. split; [exact Hrun|]. split; [exact Hrun'|].
  revert Hend Hd Hd'.
  generalize (composite_duration (schedule (sorted fst audio_clips))).
  generalize (composite_duration (schedule (sorted fst audio_clips'))).
  intros n' n Hend [[Hgap Hd]|[Hgap Hd]] [[Hgap' Hd']|[Hgap' Hd']];
    unfold tolerance in *; try lra.
  rewrite Hd, Hd'.
  rewrite (zeros_duration_proper (total_duration - n) (total_duration - n'));
    lra.
Qed.

Lemma create_audio_with_gaps_duration_order_independent_witness :
  exists final_audio final_audio',
    outcome (create_audio_with_gaps 4 [(0, Sample.sound_a); (1, Sample.sound_b)])
    = Ok final_audio
    /\ outcome (create_audio_with_gaps 4 [(1, Sample.sound_b); (0, Sample.sound_a)])
       = Ok final_audio'
    /\ audio_duration final_audio == audio_duration final_audio'.
Proof.
  apply create_audio_with_gaps_duration_order_independent.
  - discriminate.
  - apply perm_swap.
Defined.

(** ** Loading the fragments, continued *)

Lemma for_each_ignored (env : Env) (directory : string) (events : list pyval)
    (clips : list TimedVideo * list TimedAudio) :
  Forall (fun event => event_url event = None) events ->
  for_each events (process_event env directory) clips = ([], Ok clips).
Proof.
  destruct clips as [vs au].
  induction 1 as [|event events Hev _ IH]; [reflexivity|].
  simpl for_each. rewrite process_event_fate. unfold fate. rewrite Hev.
  simpl fate_log. simpl fate_videos. simpl fate_audios.
  rewrite !app_nil_r, bind_ok, IH. reflexivity.
Qed.

Lemma chars_no_url (s : string) :
  Forall (fun event => event_url event = None) (chars s).
Proof.
  induction s; simpl; constructor; auto.
Qed.

Lemma keys_no_url (d : dict) :
  Forall (fun event => event_url event = None)
         (map (fun kv => PyStr (fst kv)) d).
Proof.
  induction d; simpl; constructor; auto.
Qed.

(** X8: with a [duration] that converts to a non-zero float, an input whose
    [eventLogs] is absent, a JSON object or a string loads nothing and
    returns empty lists, logging only the two summary lines; one whose
    [eventLogs] is [null], a boolean or a number raises the [TypeError] of
    iterating that value. *)
Theorem process_video_clips_event_logs_shape (env : Env) (directory : string)
    (json_data : dict) (total_duration : Q) :
  float (str_to_float env) (get json_data "duration" (PyInt 0)) = Ok total_duration ->
  ~ total_duration == 0 ->
  ((lookup "eventLogs" json_data = None
    \/ (exists d, lookup "eventLogs" json_data = Some (PyDict d))
    \/ (exists s, lookup "eventLogs" json_data = Some (PyStr s))) ->
   process_video_clips env directory json_data =
   ([Log INFO (TotalDurationOfClips total_duration); Log INFO (LoadedClips 0 0)],
    Ok (total_duration, [], [])))
  /\ (forall v,
        lookup "eventLogs" json_data = Some v ->
        v = PyNone \/ (exists b, v = PyBool b) \/ (exists n, v = PyInt n)
        \/ (exists x, v = PyFloat x) ->
        process_video_clips env directory json_data =
        ([], Raise (TypeError ("'" ++ type_name v
                               ++ "' object is not iterable")%string))).
Proof.
  intros Hf Hnz.
  assert (Ht : truthy total_duration = true).
  { destruct (truthy total_duration) eqn:E; [reflexivity|].
    apply truthy_false_iff in E. contradiction. }
  split.
  - intro H. unfold process_video_clips. rewrite Hf. unfold lift at 1.
    rewrite bind_ok, Ht. simpl negb. cbv iota. unfold get.
    assert (Hev : exists events,
               iter match lookup "eventLogs" json_data with
                    | Some v => v
                    | None => PyList []
                    end = Ok events
               /\ Forall (fun event => event_url event = None) events).
    { destruct H as [->|[[d ->]|[s ->]]]; simpl; eexists; split;
        try reflexivity;
        [constructor|apply keys_no_url|apply chars_no_url]. }
    destruct Hev as (events & -> & Hev).
    unfold lift. rewrite bind_ok, for_each_ignored by exact Hev. reflexivity.
  - intros v Hv H. unfold process_video_clips. rewrite Hf. unfold lift at 1.
    rewrite bind_ok, Ht. simpl negb. cbv iota. unfold get. rewrite Hv.
    destruct H as [->|[[b ->]|[[n ->]|[x ->]]]]; reflexivity.
Qed.

Lemma process_video_clips_event_logs_shape_witness :
  process_video_clips Sample.online "tmp"
    [("duration", PyInt 5); ("eventLogs", PyNone)]
  = ([], Raise (TypeError "'NoneType' object is not iterable")).
Proof.
  destruct (process_video_clips_event_logs_shape Sample.online "tmp"
              [("duration", PyInt 5); ("eventLogs", PyNone)] (inject_Z 5))
    as [_ H].
  - reflexivity.
  - intro H. vm_compute in H. discriminate.
  - apply (H PyNone); [reflexivity|now left].
Defined.

Lemma for_each_aborts (env : Env) (directory : string) (e : exn)
    (events done : list pyval) :
  aborts_at env directory e events done ->
  forall clips,
    for_each events (process_event env directory) clips =
    (flat_map fate_log (map (fate env directory) done), Raise e).
Proof.
  induction 1 as [event rest Hbad|event rest done Hok _ IH]; intros [vs au].
  - simpl for_each. rewrite process_event_fate, Hbad. reflexivity.
  - simpl for_each. rewrite process_event_fate. simpl map. simpl flat_map.
    destruct (fate env directory event); simpl in Hok; try contradiction;
      rewrite bind_ok, IH; reflexivity.
Qed.

(** X9: with a usable [duration], the run stops at the first event that
    carries a URL and a [relativeTime] that [float] refuses: it raises that
    conversion error, having logged the warnings of the events before it;
    the events after it are not looked at and no clip is returned. *)
Theorem process_video_clips_aborts_at_first (env : Env) (directory : string)
    (json_data : dict) (total_duration : Q) (events done : list pyval) (e : exn) :
  float (str_to_float env) (get json_data "duration" (PyInt 0)) = Ok total_duration ->
  ~ total_duration == 0 ->
  iter (get json_data "eventLogs" (PyList [])) = Ok events ->
  aborts_at env directory e events done ->
  process_video_clips env directory json_data =
  (flat_map fate_log (map (fate env directory) done), Raise e).
Proof.
  intros Hf Hnz Hiter Habort.
  assert (Ht : truthy total_duration = true).
  { destruct (truthy total_duration) eqn:E; [reflexivity|].
    apply truthy_false_iff in E. contradiction. }
  unfold process_video_clips. rewrite Hf. unfold lift at 1.
  rewrite bind_ok, Ht. simpl negb. cbv iota. rewrite Hiter. unfold lift.
  rewrite bind_ok, (for_each_aborts env directory e events done Habort).
  simpl. rewrite ?app_nil_r. reflexivity.
Qed.

Lemma process_video_clips_aborts_at_first_witness :
  process_video_clips Sample.online "tmp"
    [("duration", PyInt 5);
     ("eventLogs",
      PyList [Sample.event (PyInt 1) "lost.mp4";
              Sample.event (PyList []) "a.mp4";
              Sample.event (PyInt 2) "a.mp4"])]
  = ([Log WARNING (FailedToDownload (PyStr "lost.mp4"))],
     Raise (TypeError "float() argument must be a string or a real number, not 'list'")).
Proof.
  apply (process_video_clips_aborts_at_first Sample.online "tmp" _
           (inject_Z 5)
           [Sample.event (PyInt 1) "lost.mp4"; Sample.event (PyList []) "a.mp4";
            Sample.event (PyInt 2) "a.mp4"]
           [Sample.event (PyInt 1) "lost.mp4"]).
  - reflexivity.
  - intro H. vm_compute in H. discriminate.
  - reflexivity.
  - apply aborts_later; [exact I|]. apply aborts_here. reflexivity.
Defined.

Lemma for_each_returns_readable (env : Env) (directory : string)
    (events : list pyval) (clips clips' : list TimedVideo * list TimedAudio) :
  outcome (for_each events (process_event env directory) clips) = Ok clips' ->
  Forall (fun event => readable (fate env directory event)) events.
Proof.
  revert clips. induction events as [|event events IH]; intros [vs au] H.
  - constructor.
  - simpl for_each in H. rewrite process_event_fate in H.
    destruct (fate env directory event) eqn:Hf;
      try (rewrite bind_ok in H; simpl in H; apply IH in H;
           constructor; [rewrite Hf; exact I|exact H]).
    discriminate.
Qed.

(** What a normal return of [process_video_clips] says about its input. *)
Lemma process_video_clips_returns_fates (env : Env) (directory : string)
    (json_data : dict) (total_duration : Q) video_clips audio_clips :
  outcome (process_video_clips env directory json_data)
  = Ok (total_duration, video_clips, audio_clips) ->
  exists events,
    iter (get json_data "eventLogs" (PyList [])) = Ok events
    /\ video_clips = flat_map fate_videos (map (fate env directory) events)
    /\ audio_clips = flat_map fate_audios (map (fate env directory) events).
Proof.
  unfold process_video_clips.
  destruct (float (str_to_float env) (get json_data "duration" (PyInt 0)))
    as [x|e0]; [|discriminate].
  unfold lift at 1. rewrite bind_ok.
  destruct (truthy x) eqn:Ht; simpl negb; cbv iota; [|discriminate].
  destruct (iter (get json_data "eventLogs" (PyList []))) as [events|e0];
    [|discriminate].
  unfold lift. rewrite bind_ok.
  destruct (for_each events (process_event env directory) ([], []))
    as [t [[vs au]|e0]] eqn:Hloop; [|discriminate].
  assert (Hr : Forall (fun event => readable (fate env directory event)) events).
  { apply (for_each_returns_readable env directory events ([], []) (vs, au)).
    now rewrite Hloop. }
  rewrite (for_each_fates env directory events [] [] Hr) in Hloop.
  injection Hloop as _ <- <-.
  simpl. intros [= _ <- <-]. exists events. auto.
Qed.

Lemma fate_video_inv (env : Env) (directory : string) (event : pyval)
    (start_time : Q) (clip : VideoFileClip) :
  fate env directory event = Video start_time clip ->
  exists url path,
    event_url event = Some url
    /\ event_time env event = Ok start_time
    /\ fetch env url directory = Some path
    /\ open_video env path = Ok clip.
Proof.
  unfold fate. destruct (event_url event) as [url|] eqn:Hu; [|discriminate].
  destruct (event_time env event) as [t|e] eqn:Ht; [|discriminate].
  destruct (fetch env url directory) as [path|] eqn:Hp; [|discriminate].
  destruct (open_video env path) as [c|e] eqn:Hv.
  - intros [= <- <-]. exists url, path. repeat split; assumption.
  - destruct (open_audio env path); discriminate.
Qed.

Lemma fate_audio_inv (env : Env) (directory : string) (event : pyval)
    (start_time : Q) (path : string) (e : exn) (clip : AudioFileClip) :
  fate env directory event = Audio start_time path e clip ->
  exists url,
    event_url event = Some url
    /\ event_time env event = Ok start_time
    /\ fetch env url directory = Some path
    /\ open_video env path = Raise e
    /\ open_audio env path = Ok clip.
Proof.
  unfold fate. destruct (event_url event) as [url|] eqn:Hu; [|discriminate].
  destruct (event_time env event) as [t|e0] eqn:Ht; [|discriminate].
  destruct (fetch env url directory) as [p|] eqn:Hp; [|discriminate].
  destruct (open_video env p) as [c|e0] eqn:Hv; [discriminate|].
  destruct (open_audio env p) as [c|e1] eqn:Ha; [|discriminate].
  intros [= <- <- <- <-]. exists url. repeat split; assumption.
Qed.

Lemma fates_count (fates : list Fate) :
  (List.length (flat_map fate_videos fates)
   + List.length (flat_map fate_audios fates) <= List.length fates)%nat.
Proof.
  induction fates as [|f fates IH]; simpl; [lia|].
  rewrite !length_app. destruct f; simpl; lia.
Qed.

(** X10: when [process_video_clips] returns, every event gave at most one
    clip; every video clip returned is one the video decoder opened from a
    downloaded file that exists, and every audio clip returned was opened from
    a file the video decoder had refused.  The start time of each is the
    float value of its event's [relativeTime]. *)
Theorem process_video_clips_provenance (env : Env) (directory : string)
    (json_data : dict) (total_duration : Q) video_clips audio_clips :
  outcome (process_video_clips env directory json_data)
  = Ok (total_duration, video_clips, audio_clips) ->
  exists events,
    iter (get json_data "eventLogs" (PyList [])) = Ok events
    /\ (List.length video_clips + List.length audio_clips
        <= List.length events)%nat
    /\ Forall (fun c =>
                 exists event url path,
                   In event events
                   /\ event_url event = Some url
                   /\ event_time env event = Ok (fst c)
                   /\ download_video_chunk env url directory = Some path
                   /\ path_exists env path = true
                   /\ open_video env path = Ok (snd c))
              video_clips
    /\ Forall (fun c =>
                 exists event url path e,
                   In event events
                   /\ event_url event = Some url
                   /\ event_time env event = Ok (fst c)
                   /\ download_video_chunk env url directory = Some path
                   /\ path_exists env path = true
                   /\ open_video env path = Raise e
                   /\ open_audio env path = Ok (snd c))
              audio_clips.
Proof.
  intro H. apply process_video_clips_returns_fates in H.
  destruct H as (events & Hiter & -> & ->).
  assert (Hfetch : forall url path,
             fetch env url directory = Some path ->
             download_video_chunk env url directory = Some path
             /\ path_exists env path = true).
  { intros url path. unfold fetch.
    destruct (download_video_chunk env url directory) as [p|]; [|discriminate].
    destruct (path_truthy (Some p)); [|discriminate].
    destruct (path_exists env p) eqn:Hp; [|discriminate].
    simpl. intros [= <-]. auto. }
  exists events. split; [exact Hiter|]. split; [|split].
  - pose proof (fates_count (map (fate env directory) events)) as Hc.
    now rewrite length_map in Hc.
  - apply Forall_forall. intros [st clip] Hin.
    apply in_flat_map in Hin. destruct Hin as (f & Hf & Hin).
    apply in_map_iff in Hf. destruct Hf as (event & <- & Hev).
    destruct (fate env directory event) eqn:Hfate; simpl in Hin;
      try contradiction.
    destruct Hin as [[= <- <-]|[]].
    apply fate_video_inv in Hfate.
    destruct Hfate as (url & path & Hu & Ht & Hp & Hv).
    destruct (Hfetch url path Hp) as [Hd He].
    exists event, url, path. repeat split; assumption.
  - apply Forall_forall. intros [st clip] Hin.
    apply in_flat_map in Hin. destruct Hin as (f & Hf & Hin).
    apply in_map_iff in Hf. destruct Hf as (event & <- & Hev).
    destruct (fate env directory event) eqn:Hfate; simpl in Hin;
      try contradiction.
    destruct Hin as [[= <- <-]|[]].
    apply fate_audio_inv in Hfate.
    destruct Hfate as (url & Hu & Ht & Hp & Hv & Ha).
    destruct (Hfetch url path Hp) as [Hd He].
    exists event, url, path, video_error. repeat split; assumption.
Qed.

Lemma process_video_clips_provenance_witness :
  exists events,
    iter (get Sample.recording "eventLogs" (PyList [])) = Ok events
    /\ (1 + 1 <= List.length events)%nat.
Proof.
  destruct (process_video_clips_provenance Sample.online "tmp" Sample.recording
              10 [(inject_Z 3, Sample.clip_a)] [(0.5, Sample.sound_a)] eq_refl)
    as (events & Hiter & Hcount & _).
  exists events. split; [exact Hiter|exact Hcount].
Defined.

(** ** The compiler, continued *)









(** X12: on success the trace ends with the write of the clip, the close of
    the composed clip and one close per fragment passed in, videos first and
    each list in its order; nothing is closed before the file is written. *)
Theorem compile_final_video_success_trace (env : Env) (total_duration : Q)
    (video_clips : list TimedVideo) (audio_clips : list TimedAudio)
    (output_path : string) (max_duration : option Z) :
  let run := compile_final_video env total_duration video_clips audio_clips
               output_path max_duration in
  outcome run = Ok tt ->
  exists before v,
    trace run =
    before
    ++ WriteVideofile v output_path (profile env)
       :: Close (Composed v)
       :: map (fun c => Close (VideoFragment (snd c))) video_clips
       ++ map (fun c => Close (AudioFragment (snd c))) audio_clips
    /\ written before = [] /\ closed before = [].
Proof.
  intro run. unfold run.
  destruct (compose_returns total_duration video_clips audio_clips)
    as (t1 & timeline & composed & Hc & Hw1 & Hc1 & _).
  destruct (apply_limit_quiet composed max_duration) as [Hw2 Hc2].
  destruct (apply_limit composed max_duration) as [t2 [v|e]] eqn:Hl.
  - rewrite (compile_final_video_run _ _ _ _ _ _ _ _ _ _ Hc Hl).
    destruct (encoder env v output_path (profile env)); [discriminate|].
    intros _. simpl trace in *.
    exists (t1 ++ t2 ++ [Log INFO (WritingFinalVideo output_path)]), v.
    split; [|split].
    + unfold handles. rewrite map_app, !map_map, <- !app_assoc. reflexivity.
    + rewrite !written_app, Hw1, Hw2. reflexivity.
    + rewrite !closed_app, Hc1, Hc2. reflexivity.
  - rewrite (compile_final_video_limit_raises _ _ _ _ _ _ _ _ _ _ Hc Hl).
    discriminate.
Qed.

Lemma compile_final_video_success_trace_witness :
  exists before v,
    trace (compile_final_video Sample.offline 3 [(0, Sample.clip_a)]
             [(0, Sample.sound_a); (1, Sample.sound_b)] "out.mp4" None)
    = before
      ++ [WriteVideofile v "out.mp4" (profile Sample.offline);
          Close (Composed v); Close (VideoFragment Sample.clip_a);
          Close (AudioFragment Sample.sound_a);
          Close (AudioFragment Sample.sound_b)]
    /\ closed before = [].
Proof.
  destruct (compile_final_video_success_trace Sample.offline 3
              [(0, Sample.clip_a)] [(0, Sample.sound_a); (1, Sample.sound_b)]
              "out.mp4" None)
    as (before & v & Htrace & _ & Hclosed).
  - reflexivity.
  - exists before, v. split; [exact Htrace|exact Hclosed].
Defined.






